(** * driver/registry_default.go: the default registry of the identity server

  A shallow embedding of [RegistryDefault], the composition root that
  lazily builds and memoizes the server's components, filters the
  self-service strategies by capability and enablement, configures the
  cookie stores and bootstraps the persistence connection under a retry
  loop.  Methods of the Go struct are functions in a state monad over the
  struct (plus the heap allocator and the log), with panics and process
  exit as explicit outcomes. *)

From Stdlib Require Import ZArith String Ascii List Bool Lia SpecFloat.
Import ListNotations.

Local Open Scope string_scope.
Local Open Scope Z_scope.

(** ** Go's standard library, as far as the file uses it *)

Module strings.

(** [strings.HasPrefix(s, prefix)]: [s] begins with [prefix]. *)
Definition HasPrefix (s prefix : string) : bool := String.prefix prefix s.

End strings.

Module time.

(** [time.Duration] is an int64 count of nanoseconds. *)
Definition Duration := Z.

Definition Nanosecond : Duration := 1.
Definition Second : Duration := 1000000000 * Nanosecond.
Definition Minute : Duration := 60 * Second.
Definition Hour : Duration := 60 * Minute.

(** float64 is IEEE 754 binary64: 53 bits of precision, emax 1024. *)
Definition float64 := spec_float.
Definition f64_of_int (z : Z) : float64 := binary_normalize 53 1024 z 0 false.
Definition f64_add (x y : float64) : float64 := SFadd 53 1024 x y.
Definition f64_div (x y : float64) : float64 := SFdiv 53 1024 x y.

(** [func (d Duration) Seconds() float64]:
    [sec := d / Second; nsec := d % Second;
     return float64(sec) + float64(nsec)/1e9]
    (Go's [/] and [%] on integers truncate toward zero). *)
Definition Seconds (d : Duration) : float64 :=
  let sec := Z.quot d Second in
  let nsec := Z.rem d Second in
  f64_add (f64_of_int sec) (f64_div (f64_of_int nsec) (f64_of_int 1000000000)).

(** The conversion [int(f)] of a finite float64 that fits an int:
    the fraction is discarded (truncation toward zero). *)
Definition int_of_f64 (f : float64) : Z :=
  match f with
  | S754_finite s m e =>
      let v := if 0 <=? e then Z.pos m * 2 ^ e else Z.quot (Z.pos m) (2 ^ (- e)) in
      if s then - v else v
  | _ => 0
  end.

End time.

Module http.
(** [http.SameSite] is an int; 0 is "not set". *)
Definition SameSite := Z.
Definition SameSiteDefaultMode : SameSite := 1.
Definition SameSiteLaxMode : SameSite := 2.
Definition SameSiteStrictMode : SameSite := 3.
Definition SameSiteNoneMode : SameSite := 4.
End http.

(** Go's [error] values: an opaque error with its message, possibly wrapped
  by [errors.WithStack]; [nil] is [None] of [option error]. *)
Inductive error : Type :=
| Err (msg : string)
| WithStackErr (cause : error).

Module errors.
(** [errors.WithStack(err)]: [nil] stays [nil]. *)
Definition WithStack (e : option error) : option error :=
  match e with
  | None => None
  | Some err => Some (WithStackErr err)
  end.
End errors.

(** ** Types of the packages the registry wires together

    Only their declarations are used here.  Objects built by a constructor
    live on the heap and are identified by their address. *)

Definition Ptr := nat.

(** [context.Context], an opaque request context. *)
Definition Context := nat.

Module config.

(** [config.SelfServiceStrategy], the per-mechanism configuration. *)
Record SelfServiceStrategy : Type := { Enabled : bool }.

(** What [*config.Provider] answers at a given moment.  The provider is hot
    reloadable: the answers may differ between two calls of a registry
    method (never during one). *)
Record Provider : Type := {
  DSN : string;
  SelfServiceStrategy_ : string -> SelfServiceStrategy;
  SecretsSession : list string;
  IsInsecureDevMode : bool;
  SessionDomain : string;
  SessionPath : string;
  SessionSameSiteMode : http.SameSite;
  SessionPersistentCookie : bool;
  SessionLifespan : time.Duration;
  Tracing : string
}.

End config.

Module sessions.

(** [sessions.Options] of gorilla/sessions. *)
Record Options : Type := {
  Path : string;
  Domain : string;
  MaxAge : Z;
  Secure : bool;
  HttpOnly : bool;
  SameSite : http.SameSite
}.

(** [*sessions.CookieStore]: its address, its key pairs and its options. *)
Record CookieStore : Type := {
  store_addr : Ptr;
  Codecs : list string;
  Options_ : Options
}.

Definition with_Options (o : Options) (cs : CookieStore) : CookieStore :=
  {| store_addr := store_addr cs; Codecs := Codecs cs; Options_ := o |}.

End sessions.

(** A self-service strategy: the dynamic type behind an [interface{}] entry
    of [selfserviceStrategies].  The method set of the concrete type decides
    which type assertions [strategy.(registration.Strategy)], ... succeed. *)
Record StrategyType : Type := {
  ID : string;
  is_registration_Strategy : bool;
  is_login_Strategy : bool;
  is_verification_Strategy : bool;
  is_ActiveCredentialsCounter : bool
}.

Record Strategy : Type := {
  strategy_addr : Ptr;
  strategy_type : StrategyType
}.

(** [*pop.Connection], as built from [pop.ConnectionDetails]. *)
Record Connection : Type := {
  URL : string;
  IdlePool : Z;
  ConnMaxLifetime : time.Duration;
  Pool : Z
}.

Module persistence.

(** A [persistence.Persister] value: the [*sql.Persister] that
    [sql.NewPersister] allocated, with the connection it wraps. *)
Record Persister : Type := {
  addr : Ptr;
  conn : Connection
}.

End persistence.

(** What the imported packages contribute: the four strategy types, the
    defaults of [sessions.NewCookieStore], the constant [dbal.InMemoryDSN],
    [corp.ContextualizeConfig], the DSN helpers of [sqlcon], whether
    [tracing.New] fails, and what [logout.NewHandler] and [courier.NewSMTP]
    do with the provider pointer they are handed, which may be nil: [None]
    when the constructor builds its object, [Some v] when it panics with
    [v]. *)
Record Deps : Type := {
  password2_Strategy : StrategyType;
  oidc_Strategy : StrategyType;
  profile_Strategy : StrategyType;
  link_Strategy : StrategyType;
  sessions_NewCookieStore_Options : sessions.Options;
  dbal_InMemoryDSN : string;
  corp_ContextualizeConfig : Context -> config.Provider -> config.Provider;
  sqlcon_ParseConnectionOptions : string -> Z * Z * time.Duration * string;
  sqlcon_FinalizeDSN : string -> string;
  tracing_New : string -> option error;
  logout_NewHandler : option config.Provider -> option string;
  courier_NewSMTP : option config.Provider -> option string
}.

(** ** The registry struct *)

(** The pointer-valued singleton fields of [RegistryDefault] that this file
    reads or writes, by their Go names. *)
Module F.

Inductive Field : Type :=
| l | a | nosurf | trc | pmm | writer | healthxHandler | metricsHandler
| courier | identityHandler | identityValidator | identityManager
| continuityManager | schemaHandler | sessionHandler | sessionManager
| passwordHasher | passwordValidator | errorHandler | errorManager
| selfserviceLogoutHandler.

Definition eq_dec (f g : Field) : {f = g} + {f <> g}.
Proof. decide equality. Defined.

End F.


Record RegistryDefault : Type := {
  c : option config.Provider;
  singleton : F.Field -> option Ptr;
  persister : option persistence.Persister;
  sessionsStore : option sessions.CookieStore;
  selfserviceStrategies : list Strategy;
  loginStrategies : list Strategy;
  activeCredentialsCounterStrategies : list Strategy;
  registrationStrategies : list Strategy;
  verificationStrategies : list Strategy
}.

(** [NewRegistryDefault()]: [&RegistryDefault{}], every field zero. *)
Definition NewRegistryDefault : RegistryDefault :=
  {| c := None; singleton := fun _ => None; persister := None;
     sessionsStore := None; selfserviceStrategies := [];
     loginStrategies := []; activeCredentialsCounterStrategies := [];
     registrationStrategies := []; verificationStrategies := [] |}.

Definition set_c (v : option config.Provider) (m : RegistryDefault) :=
  {| c := v; singleton := singleton m; persister := persister m;
     sessionsStore := sessionsStore m;
     selfserviceStrategies := selfserviceStrategies m;
     loginStrategies := loginStrategies m;
     activeCredentialsCounterStrategies := activeCredentialsCounterStrategies m;
     registrationStrategies := registrationStrategies m;
     verificationStrategies := verificationStrategies m |}.

Definition set_singleton (f : F.Field) (v : option Ptr) (m : RegistryDefault) :=
  {| c := c m;
     singleton := fun g => if F.eq_dec f g then v else singleton m g;
     persister := persister m; sessionsStore := sessionsStore m;
     selfserviceStrategies := selfserviceStrategies m;
     loginStrategies := loginStrategies m;
     activeCredentialsCounterStrategies := activeCredentialsCounterStrategies m;
     registrationStrategies := registrationStrategies m;
     verificationStrategies := verificationStrategies m |}.

Definition set_persister (v : option persistence.Persister) (m : RegistryDefault) :=
  {| c := c m; singleton := singleton m; persister := v;
     sessionsStore := sessionsStore m;
     selfserviceStrategies := selfserviceStrategies m;
     loginStrategies := loginStrategies m;
     activeCredentialsCounterStrategies := activeCredentialsCounterStrategies m;
     registrationStrategies := registrationStrategies m;
     verificationStrategies := verificationStrategies m |}.

Definition set_sessionsStore (v : option sessions.CookieStore) (m : RegistryDefault) :=
  {| c := c m; singleton := singleton m; persister := persister m;
     sessionsStore := v;
     selfserviceStrategies := selfserviceStrategies m;
     loginStrategies := loginStrategies m;
     activeCredentialsCounterStrategies := activeCredentialsCounterStrategies m;
     registrationStrategies := registrationStrategies m;
     verificationStrategies := verificationStrategies m |}.

Definition set_selfserviceStrategies (v : list Strategy) (m : RegistryDefault) :=
  {| c := c m; singleton := singleton m; persister := persister m;
     sessionsStore := sessionsStore m;
     selfserviceStrategies := v;
     loginStrategies := loginStrategies m;
     activeCredentialsCounterStrategies := activeCredentialsCounterStrategies m;
     registrationStrategies := registrationStrategies m;
     verificationStrategies := verificationStrategies m |}.

Definition set_loginStrategies (v : list Strategy) (m : RegistryDefault) :=
  {| c := c m; singleton := singleton m; persister := persister m;
     sessionsStore := sessionsStore m;
     selfserviceStrategies := selfserviceStrategies m;
     loginStrategies := v;
     activeCredentialsCounterStrategies := activeCredentialsCounterStrategies m;
     registrationStrategies := registrationStrategies m;
     verificationStrategies := verificationStrategies m |}.

Definition set_activeCredentialsCounterStrategies (v : list Strategy) (m : RegistryDefault) :=
  {| c := c m; singleton := singleton m; persister := persister m;
     sessionsStore := sessionsStore m;
     selfserviceStrategies := selfserviceStrategies m;
     loginStrategies := loginStrategies m;
     activeCredentialsCounterStrategies := v;
     registrationStrategies := registrationStrategies m;
     verificationStrategies := verificationStrategies m |}.

Definition set_registrationStrategies (v : list Strategy) (m : RegistryDefault) :=
  {| c := c m; singleton := singleton m; persister := persister m;
     sessionsStore := sessionsStore m;
     selfserviceStrategies := selfserviceStrategies m;
     loginStrategies := loginStrategies m;
     activeCredentialsCounterStrategies := activeCredentialsCounterStrategies m;
     registrationStrategies := v;
     verificationStrategies := verificationStrategies m |}.

Definition set_verificationStrategies (v : list Strategy) (m : RegistryDefault) :=
  {| c := c m; singleton := singleton m; persister := persister m;
     sessionsStore := sessionsStore m;
     selfserviceStrategies := selfserviceStrategies m;
     loginStrategies := loginStrategies m;
     activeCredentialsCounterStrategies := activeCredentialsCounterStrategies m;
     registrationStrategies := registrationStrategies m;
     verificationStrategies := v |}.

(** ** The process state and the monad of registry methods *)

(** Calls into the database packages and the logger, in program order. *)
Inductive Event : Type :=
| EvParseConnectionOptions (dsn : string)
| EvNewConnection (url : string)
| EvOpen
| EvNewPersister
| EvPing
| EvMigrateUp
| EvWarnf (err : error) (msg : string)
| EvInfoln (msg : string)
| EvFatalf (err : error) (msg : string).

(** The registry (there is one, behind the receiver pointer [m]), the next
    free heap address and the events so far, oldest first. *)
Record Proc : Type := {
  reg : RegistryDefault;
  heap : Ptr;
  trace : list Event
}.

Definition boot : Proc := {| reg := NewRegistryDefault; heap := O; trace := [] |}.

Definition with_reg (f : RegistryDefault -> RegistryDefault) (s : Proc) : Proc :=
  {| reg := f (reg s); heap := heap s; trace := trace s |}.

(** How a call ends: it returns, it panics (the registry stays as it was at
    the panic, for a caller that recovers), or the process exits (a fatal
    log). *)
Inductive Outcome (A : Type) : Type :=
| Returns (x : A) (s : Proc)
| Panics (v : string) (s : Proc)
| Exits (s : Proc).
Arguments Returns {A} x s.
Arguments Panics {A} v s.
Arguments Exits {A} s.

Definition M (A : Type) : Type := Proc -> Outcome A.

Definition ret {A} (x : A) : M A := fun s => Returns x s.

Definition bind {A B} (m : M A) (k : A -> M B) : M B :=
  fun s =>
    match m s with
    | Returns x s' => k x s'
    | Panics v s' => Panics v s'
    | Exits s' => Exits s'
    end.

Notation "x <- m ;; k" := (bind m (fun x => k))
  (at level 61, m at next level, right associativity).
Notation "m ;; k" := (bind m (fun _ => k))
  (at level 61, right associativity).

Definition panic {A} (v : string) : M A := fun s => Panics v s.
Definition os_Exit {A} : M A := fun s => Exits s.
Definition read {A} (f : RegistryDefault -> A) : M A := fun s => Returns (f (reg s)) s.
Definition write (f : RegistryDefault -> RegistryDefault) : M unit :=
  fun s => Returns tt (with_reg f s).
Definition emit (e : Event) : M unit :=
  fun s => Returns tt {| reg := reg s; heap := heap s; trace := trace s ++ [e] |}.

(** A constructor of another package ([X.NewHandler(m)], ...) allocates its
    object and returns the address. *)
Definition new : M Ptr :=
  fun s => Returns (heap s) {| reg := reg s; heap := S (heap s); trace := trace s |}.

(** The state after a call, however it ended. *)
Definition final {A} (o : Outcome A) : Proc :=
  match o with Returns _ s | Panics _ s | Exits s => s end.

(** Go's message for the dereference of a nil pointer or nil interface. *)
Definition nil_dereference : string :=
  "runtime error: invalid memory address or nil pointer dereference".

(** ** Methods of [*RegistryDefault] *)

(** [if m.f == nil { m.f = construct }; return m.f], the shape of every
    memoizing getter. *)
Definition lazily (f : F.Field) (construct : M Ptr) : M Ptr :=
  v <- read (fun m => singleton m f) ;;
  match v with
  | Some p => ret p
  | None => p <- construct ;; write (set_singleton f (Some p)) ;; ret p
  end.

(** A method call [m.c.X()]: the provider dereferences its receiver. *)
Definition m_c : M config.Provider :=
  v <- read c ;;
  match v with
  | Some cfg => ret cfg
  | None => panic nil_dereference
  end.

Definition WithLogger (lg : option Ptr) : M unit := write (set_singleton F.l lg).
Definition WithConfig (cfg : option config.Provider) : M unit := write (set_c cfg).
Definition WithCSRFHandler (h : option Ptr) : M unit := write (set_singleton F.nosurf h).

Definition Logger : M Ptr := lazily F.l new.
Definition Audit : M Ptr := lazily F.a new.
Definition Writer : M Ptr := lazily F.writer (Logger ;; new).

(** [logout.NewHandler(m, m.c)]: the provider pointer is read and handed
    to the constructor. *)
Definition LogoutHandler (d : Deps) : M Ptr :=
  lazily F.selfserviceLogoutHandler
    (cfg <- read c ;;
     match logout_NewHandler d cfg with
     | Some v => panic v
     | None => new
     end).

Definition HealthHandler : M Ptr := lazily F.healthxHandler (Writer ;; new).
Definition MetricsHandler : M Ptr := lazily F.metricsHandler (Writer ;; new).
Definition IdentityValidator : M Ptr := lazily F.identityValidator new.
Definition IdentityHandler : M Ptr := lazily F.identityHandler new.
Definition SchemaHandler : M Ptr := lazily F.schemaHandler new.
Definition SessionHandler : M Ptr := lazily F.sessionHandler new.
Definition Hasher : M Ptr := lazily F.passwordHasher new.
Definition PasswordValidator : M Ptr := lazily F.passwordValidator new.
Definition SelfServiceErrorHandler : M Ptr := lazily F.errorHandler new.
Definition SessionManager : M Ptr := lazily F.sessionManager new.
Definition SelfServiceErrorManager : M Ptr := lazily F.errorManager new.

(** [courier.NewSMTP(m, m.c)], likewise. *)
Definition Courier (d : Deps) : M Ptr :=
  lazily F.courier
    (cfg <- read c ;;
     match courier_NewSMTP d cfg with
     | Some v => panic v
     | None => new
     end).

Definition ContinuityManager : M Ptr := lazily F.continuityManager new.
Definition IdentityManager : M Ptr := lazily F.identityManager new.
Definition PrometheusManager : M Ptr := lazily F.pmm new.

Definition CSRFHandler : M Ptr :=
  v <- read (fun m => singleton m F.nosurf) ;;
  match v with
  | None => panic "csrf handler is not set"
  | Some h => ret h
  end.

Definition Configuration (d : Deps) (ctx : Context) : M config.Provider :=
  v <- read c ;;
  match v with
  | None => panic "configuration not set"
  | Some cfg => ret (corp_ContextualizeConfig d ctx cfg)
  end.

Definition NewStrategy (t : StrategyType) : M Strategy :=
  p <- new ;; ret {| strategy_addr := p; strategy_type := t |}.

Definition selfServiceStrategies (d : Deps) : M (list Strategy) :=
  cur <- read selfserviceStrategies ;;
  (if (length cur =? 0)%nat then
     s1 <- NewStrategy (password2_Strategy d) ;;
     s2 <- NewStrategy (oidc_Strategy d) ;;
     s3 <- NewStrategy (profile_Strategy d) ;;
     s4 <- NewStrategy (link_Strategy d) ;;
     write (set_selfserviceStrategies [s1; s2; s3; s4])
   else ret tt) ;;
  read selfserviceStrategies.

(** [for _, x := range xs { body }] *)
Fixpoint range {A} (xs : list A) (body : A -> M unit) : M unit :=
  match xs with
  | [] => ret tt
  | x :: rest => body x ;; range rest body
  end.

(** [m.c.SelfServiceStrategy(string(s.ID())).Enabled] *)
Definition strategy_enabled (strategy : Strategy) : M bool :=
  cfg <- m_c ;;
  ret (config.Enabled (config.SelfServiceStrategy_ cfg (ID (strategy_type strategy)))).

Definition RegistrationStrategies (d : Deps) : M (list Strategy) :=
  cur <- read registrationStrategies ;;
  (if (length cur =? 0)%nat then
     all <- selfServiceStrategies d ;;
     range all (fun strategy =>
       if is_registration_Strategy (strategy_type strategy) then
         en <- strategy_enabled strategy ;;
         if en then
           write (fun m => set_registrationStrategies (registrationStrategies m ++ [strategy]) m)
         else ret tt
       else ret tt)
   else ret tt) ;;
  read registrationStrategies.

Definition LoginStrategies (d : Deps) : M (list Strategy) :=
  cur <- read loginStrategies ;;
  (if (length cur =? 0)%nat then
     all <- selfServiceStrategies d ;;
     range all (fun strategy =>
       if is_login_Strategy (strategy_type strategy) then
         en <- strategy_enabled strategy ;;
         if en then
           write (fun m => set_loginStrategies (loginStrategies m ++ [strategy]) m)
         else ret tt
       else ret tt)
   else ret tt) ;;
  read loginStrategies.

Definition VerificationStrategies (d : Deps) : M (list Strategy) :=
  cur <- read verificationStrategies ;;
  (if (length cur =? 0)%nat then
     all <- selfServiceStrategies d ;;
     range all (fun strategy =>
       if is_verification_Strategy (strategy_type strategy) then
         write (fun m => set_verificationStrategies (verificationStrategies m ++ [strategy]) m)
       else ret tt)
   else ret tt) ;;
  read verificationStrategies.

Definition ActiveCredentialsCounterStrategies (d : Deps) (ctx : Context) : M (list Strategy) :=
  cur <- read activeCredentialsCounterStrategies ;;
  (if (length cur =? 0)%nat then
     all <- selfServiceStrategies d ;;
     range all (fun strategy =>
       if is_ActiveCredentialsCounter (strategy_type strategy) then
         write (fun m => set_activeCredentialsCounterStrategies
                           (activeCredentialsCounterStrategies m ++ [strategy]) m)
       else ret tt)
   else ret tt) ;;
  read activeCredentialsCounterStrategies.

(** ** Cookie stores *)

Module Opt.
Import sessions.
Definition set_Path (v : string) (o : Options) : Options :=
  {| Path := v; Domain := Domain o; MaxAge := MaxAge o; Secure := Secure o;
     HttpOnly := HttpOnly o; SameSite := SameSite o |}.
Definition set_Domain (v : string) (o : Options) : Options :=
  {| Path := Path o; Domain := v; MaxAge := MaxAge o; Secure := Secure o;
     HttpOnly := HttpOnly o; SameSite := SameSite o |}.
Definition set_MaxAge (v : Z) (o : Options) : Options :=
  {| Path := Path o; Domain := Domain o; MaxAge := v; Secure := Secure o;
     HttpOnly := HttpOnly o; SameSite := SameSite o |}.
Definition set_Secure (v : bool) (o : Options) : Options :=
  {| Path := Path o; Domain := Domain o; MaxAge := MaxAge o; Secure := v;
     HttpOnly := HttpOnly o; SameSite := SameSite o |}.
Definition set_HttpOnly (v : bool) (o : Options) : Options :=
  {| Path := Path o; Domain := Domain o; MaxAge := MaxAge o; Secure := Secure o;
     HttpOnly := v; SameSite := SameSite o |}.
Definition set_SameSite (v : http.SameSite) (o : Options) : Options :=
  {| Path := Path o; Domain := Domain o; MaxAge := MaxAge o; Secure := Secure o;
     HttpOnly := HttpOnly o; SameSite := v |}.
End Opt.

(** [sessions.NewCookieStore(keyPairs...)]: a new store with the package's
    default options. *)
Definition sessions_NewCookieStore (d : Deps) (keyPairs : list string) : M sessions.CookieStore :=
  p <- new ;;
  ret {| sessions.store_addr := p; sessions.Codecs := keyPairs;
         sessions.Options_ := sessions_NewCookieStore_Options d |}.

(** The options [CookieManager] leaves in a store that started from [o]. *)
Definition session_cookie_options (cfg : config.Provider) (o : sessions.Options) : sessions.Options :=
  let o := Opt.set_Secure (negb (config.IsInsecureDevMode cfg)) o in
  let o := Opt.set_HttpOnly true o in
  let o := if negb (config.SessionDomain cfg =? "")%string
           then Opt.set_Domain (config.SessionDomain cfg) o else o in
  let o := if negb (config.SessionPath cfg =? "")%string
           then Opt.set_Path (config.SessionPath cfg) o else o in
  let o := if negb (config.SessionSameSiteMode cfg =? 0)
           then Opt.set_SameSite (config.SessionSameSiteMode cfg) o else o in
  let o := Opt.set_MaxAge 0 o in
  let o := if config.SessionPersistentCookie cfg
           then Opt.set_MaxAge (time.int_of_f64 (time.Seconds (config.SessionLifespan cfg))) o
           else o in
  o.

Definition CookieManager (d : Deps) : M sessions.CookieStore :=
  v <- read sessionsStore ;;
  match v with
  | Some cs => ret cs
  | None =>
      cfg <- m_c ;;
      cs <- sessions_NewCookieStore d (config.SecretsSession cfg) ;;
      let cs := sessions.with_Options (session_cookie_options cfg (sessions.Options_ cs)) cs in
      write (set_sessionsStore (Some cs)) ;;
      ret cs
  end.

Definition ContinuityCookieManager (d : Deps) (ctx : Context) : M sessions.CookieStore :=
  cfg <- Configuration d ctx ;;
  cs <- sessions_NewCookieStore d (config.SecretsSession cfg) ;;
  cfg' <- Configuration d ctx ;;
  let o := sessions.Options_ cs in
  let o := Opt.set_Secure (negb (config.IsInsecureDevMode cfg')) o in
  let o := Opt.set_HttpOnly true o in
  let o := Opt.set_SameSite http.SameSiteLaxMode o in
  ret (sessions.with_Options o cs).

Definition Tracer (d : Deps) (ctx : Context) : M Ptr :=
  lazily F.trc
    (cfg <- Configuration d ctx ;;
     match tracing_New d (config.Tracing cfg) with
     | Some err =>
         Logger ;; emit (EvFatalf err "Unable to initialize Tracer.") ;; os_Exit
     | None => new
     end).

(** ** The persister and its views *)

Definition Persister : M (option persistence.Persister) := read persister.
Definition ContinuityPersister : M (option persistence.Persister) := read persister.
Definition IdentityPool : M (option persistence.Persister) := read persister.
Definition PrivilegedIdentityPool : M (option persistence.Persister) := read persister.
Definition RegistrationFlowPersister : M (option persistence.Persister) := read persister.
Definition RecoveryFlowPersister : M (option persistence.Persister) := read persister.
Definition LoginFlowPersister : M (option persistence.Persister) := read persister.
Definition SettingsFlowPersister : M (option persistence.Persister) := read persister.
Definition SelfServiceErrorPersister : M (option persistence.Persister) := read persister.
Definition SessionPersister : M (option persistence.Persister) := read persister.
Definition CourierPersister : M (option persistence.Persister) := read persister.
Definition RecoveryTokenPersister : M (option persistence.Persister) := Persister.
Definition VerificationTokenPersister : M (option persistence.Persister) := Persister.

(** [m.persister.Ping()]; [db p] is what the database answers to a ping
    through persister [p]. *)
Definition Ping (db : persistence.Persister -> option error) : M (option error) :=
  v <- read persister ;;
  match v with
  | None => panic nil_dereference
  | Some p => emit EvPing ;; ret (db p)
  end.

(** ** Bootstrap of the persistence connection *)

Module backoff.

(** [backoff.ExponentialBackOff], of which [Init] sets [MaxElapsedTime]. *)
Record ExponentialBackOff : Type := { MaxElapsedTime : time.Duration }.

(** [NextBackOff() == Stop]: the policy gives up once the time elapsed since
    [Reset] exceeds a non-zero [MaxElapsedTime]. *)
Definition stops (b : ExponentialBackOff) (elapsed : time.Duration) : bool :=
  negb (MaxElapsedTime b =? 0) && (MaxElapsedTime b <? elapsed).

(** [backoff.Retry(operation, b)]: run [operation] until it returns [nil] or
    the policy stops, in which case the last error is returned.  [operation i]
    is the i-th run; [clock i] is the elapsed time the policy reads after
    it.  [None]: more runs than [fuel]. *)
Fixpoint Retry (fuel : nat) (operation : nat -> M (option error))
    (b : ExponentialBackOff) (clock : nat -> time.Duration) (i : nat) (s : Proc)
  : option (Outcome (option error)) :=
  match fuel with
  | O => None
  | S fuel' =>
      match operation i s with
      | Returns None s' => Some (Returns None s')
      | Returns (Some err) s' =>
          if stops b (clock i) then Some (Returns (Some err) s')
          else Retry fuel' operation b clock (S i) s'
      | Panics v s' => Some (Panics v s')
      | Exits s' => Some (Exits s')
      end
  end.

End backoff.

(** What the world answers during one run of the bootstrap closure: the
    error (or [nil]) of each call into the database packages, and the time
    elapsed since the retry started, as read after the run. *)
Record Attempt : Type := {
  pop_NewConnection : option error;
  Open : option error;
  sql_NewPersister : option error;
  p_Ping : option error;
  p_MigrateUp : option error;
  elapsed : time.Duration
}.

Definition migration_notice : string :=
  "ORY Kratos is running migrations on every startup as DSN is memory. This means your data is lost when Kratos terminates.".

Definition warn (err : error) (msg : string) : M unit :=
  Logger ;; emit (EvWarnf err msg).

(** The closure passed to [backoff.Retry]. *)
Definition bootstrap (d : Deps) (ctx : Context) (w : Attempt) : M (option error) :=
  cfg <- Configuration d ctx ;;
  emit (EvParseConnectionOptions (config.DSN cfg)) ;;
  let '(pool, idlePool, connMaxLifetime, cleanedDSN) :=
    sqlcon_ParseConnectionOptions d (config.DSN cfg) in
  let conn := {| URL := sqlcon_FinalizeDSN d cleanedDSN; IdlePool := idlePool;
                 ConnMaxLifetime := connMaxLifetime; Pool := pool |} in
  emit (EvNewConnection (URL conn)) ;;
  match pop_NewConnection w with
  | Some err =>
      warn err "Unable to connect to database, retrying." ;;
      ret (errors.WithStack (Some err))
  | None =>
  emit EvOpen ;;
  match Open w with
  | Some err =>
      warn err "Unable to open database, retrying." ;;
      ret (errors.WithStack (Some err))
  | None =>
  emit EvNewPersister ;;
  match sql_NewPersister w with
  | Some err =>
      warn err "Unable to initialize persister, retrying." ;;
      ret (Some err)
  | None =>
  addr <- new ;;
  let p := {| persistence.addr := addr; persistence.conn := conn |} in
  emit EvPing ;;
  match p_Ping w with
  | Some err =>
      warn err "Unable to ping database, retrying." ;;
      ret (Some err)
  | None =>
  mcfg <- m_c ;;
  if (dbal_InMemoryDSN d =? config.DSN mcfg)%string then
    Logger ;;
    emit (EvInfoln migration_notice) ;;
    emit EvMigrateUp ;;
    match p_MigrateUp w with
    | Some err => ret (Some err)
    | None => write (set_persister (Some p)) ;; ret None
    end
  else
    write (set_persister (Some p)) ;; ret None
  end end end end.

Definition Init_panic : string :=
  "RegistryDefault.Init() must not be called more than once.".

(** [Init(ctx)] against the world [w], which answers the i-th run of the
    closure with [w i]. *)
Definition Init (d : Deps) (ctx : Context) (w : nat -> Attempt) (fuel : nat) (s : Proc)
  : option (Outcome (option error)) :=
  match persister (reg s) with
  | Some _ => Some (Panics Init_panic s)
  | None =>
      let bc := {| backoff.MaxElapsedTime := time.Minute * 5 |} in
      match backoff.Retry fuel (fun i => bootstrap d ctx (w i)) bc
              (fun i => elapsed (w i)) O s with
      | Some (Returns e s') => Some (Returns (errors.WithStack e) s')
      | r => r
      end
  end.

(** ** DSN schemes *)

Definition CanHandle (dsn : string) : bool :=
  (dsn =? "memory")%string ||
  strings.HasPrefix dsn "mysql" ||
  strings.HasPrefix dsn "sqlite" ||
  strings.HasPrefix dsn "sqlite3" ||
  strings.HasPrefix dsn "postgres" ||
  strings.HasPrefix dsn "postgresql" ||
  strings.HasPrefix dsn "cockroach" ||
  strings.HasPrefix dsn "cockroachdb" ||
  strings.HasPrefix dsn "crdb".

(** The prefixes the specification lists for the backing engines. *)
Definition engine_prefixes : list string :=
  ["sqlite"; "sqlite3"; "mysql"; "postgres"; "postgresql";
   "cockroach"; "cockroachdb"; "crdb"].

Definition begins_with_engine_prefix (dsn : string) : Prop :=
  exists p rest, In p engine_prefixes /\ dsn = (p ++ rest)%string.

(** Laws of a struct field [get]/[set] that is not [c]. *)
Record field_laws (get : RegistryDefault -> list Strategy)
    (set : list Strategy -> RegistryDefault -> RegistryDefault) : Prop := {
  get_set : forall v m, get (set v m) = v;
  set_set : forall v v' m, set v' (set v m) = set v' m;
  set_get : forall m, set (get m) m = m;
  c_set : forall v m, c (set v m) = c m
}.

(** ** Strategy sets, as the specification describes them *)

Definition enabled_in (cfg : config.Provider) (st : Strategy) : bool :=
  config.Enabled (config.SelfServiceStrategy_ cfg (ID (strategy_type st))).

Definition implements_registration (st : Strategy) : bool :=
  is_registration_Strategy (strategy_type st).
Definition implements_login (st : Strategy) : bool :=
  is_login_Strategy (strategy_type st).
Definition implements_verification (st : Strategy) : bool :=
  is_verification_Strategy (strategy_type st).

(** A change of the configuration between two calls (hot reload, or
    [WithConfig]). *)
Definition reconfigure (cfg : config.Provider) (s : Proc) : Proc :=
  with_reg (set_c (Some cfg)) s.

(** ** The packages as the project imports them

    The instance used for the concrete runs below: the method sets of the
    four strategies of the project (password and oidc register and log in
    and count credentials, profile only serves settings, link serves
    recovery and verification), the defaults of [NewCookieStore] in
    gorilla/sessions ([Path: "/", MaxAge: 86400 * 30]), a contextualizer
    that returns the provider it is given, a logout handler that stores
    the provider pointer and a courier whose constructor reads the SMTP
    URL from it. *)
Module kratos.

Definition password : StrategyType :=
  {| ID := "password"; is_registration_Strategy := true; is_login_Strategy := true;
     is_verification_Strategy := false; is_ActiveCredentialsCounter := true |}.
Definition oidc : StrategyType :=
  {| ID := "oidc"; is_registration_Strategy := true; is_login_Strategy := true;
     is_verification_Strategy := false; is_ActiveCredentialsCounter := true |}.
Definition profile : StrategyType :=
  {| ID := "profile"; is_registration_Strategy := false; is_login_Strategy := false;
     is_verification_Strategy := false; is_ActiveCredentialsCounter := false |}.
Definition link : StrategyType :=
  {| ID := "link"; is_registration_Strategy := false; is_login_Strategy := false;
     is_verification_Strategy := true; is_ActiveCredentialsCounter := false |}.

Definition gorilla_Options : sessions.Options :=
  {| sessions.Path := "/"; sessions.Domain := ""; sessions.MaxAge := 86400 * 30;
     sessions.Secure := false; sessions.HttpOnly := false; sessions.SameSite := 0 |}.

Definition deps : Deps :=
  {| password2_Strategy := password; oidc_Strategy := oidc;
     profile_Strategy := profile; link_Strategy := link;
     sessions_NewCookieStore_Options := gorilla_Options;
     dbal_InMemoryDSN := "sqlite://:memory:?_fk=true";
     corp_ContextualizeConfig := fun _ cfg => cfg;
     sqlcon_ParseConnectionOptions := fun dsn => (0, 0, 0, dsn);
     sqlcon_FinalizeDSN := fun dsn => dsn;
     tracing_New := fun _ => None;
     logout_NewHandler := fun _ => None;
     courier_NewSMTP := fun cfg =>
       match cfg with
       | Some _ => None
       | None => Some nil_dereference
       end |}.

(** A configuration that enables exactly the mechanisms of [on]. *)
Definition cfg_with (dsn : string) (on : list string) : config.Provider :=
  {| config.DSN := dsn;
     config.SelfServiceStrategy_ := fun id =>
       {| config.Enabled := existsb (String.eqb id) on |};
     config.SecretsSession := ["secret"];
     config.IsInsecureDevMode := false;
     config.SessionDomain := "";
     config.SessionPath := "";
     config.SessionSameSiteMode := 0;
     config.SessionPersistentCookie := true;
     config.SessionLifespan := 24 * time.Hour;
     config.Tracing := "" |}.

(** A world in which every database call succeeds at once. *)
Definition all_fine : nat -> Attempt := fun _ =>
  {| pop_NewConnection := None; Open := None; sql_NewPersister := None;
     p_Ping := None; p_MigrateUp := None; elapsed := 0 |}.

(** A world in which the database cannot be reached; one run takes a
    minute and a half. *)
Definition unreachable : nat -> Attempt := fun i =>
  {| pop_NewConnection := Some (Err "connection refused"); Open := None;
     sql_NewPersister := None; p_Ping := None; p_MigrateUp := None;
     elapsed := Z.of_nat (S i) * (90 * time.Second) |}.

End kratos.

(** The strategies registered once [selfServiceStrategies] has run in [s]. *)
Definition registered (d : Deps) (s : Proc) : list Strategy :=
  match selfServiceStrategies d s with
  | Returns all _ => all
  | _ => []
  end.

(** Concrete configurations for the runs below. *)
Definition all_enabled : config.Provider :=
  kratos.cfg_with "sqlite://:memory:?_fk=true" ["password"; "oidc"; "profile"; "link"].
Definition password_disabled : config.Provider :=
  kratos.cfg_with "sqlite://:memory:?_fk=true" ["oidc"; "profile"; "link"].
Definition link_disabled : config.Provider :=
  kratos.cfg_with "sqlite://:memory:?_fk=true" ["password"; "oidc"; "profile"].
Definition none_enabled : config.Provider :=
  kratos.cfg_with "sqlite://:memory:?_fk=true" [].
Definition postgres_configured : config.Provider :=
  kratos.cfg_with "postgres://kratos@db/kratos" ["password"].

(** A persistent session of 16777216.999999999 seconds (about 194 days). *)
Definition long_lifespan : config.Provider :=
  {| config.DSN := "memory";
     config.SelfServiceStrategy_ := fun _ => {| config.Enabled := true |};
     config.SecretsSession := ["secret"];
     config.IsInsecureDevMode := false;
     config.SessionDomain := "";
     config.SessionPath := "";
     config.SessionSameSiteMode := 0;
     config.SessionPersistentCookie := true;
     config.SessionLifespan := 16777216 * time.Second + 999999999 * time.Nanosecond;
     config.Tracing := "" |}.

(** What a call returned, if it returned. *)
Definition returned {A} (o : Outcome A) : option A :=
  match o with
  | Returns x _ => Some x
  | _ => None
  end.

(** ** The bootstrap closure, as a function of what the world answers *)

(** The error one run of the closure returns ([None]: the run succeeded). *)
Definition attempt_error (d : Deps) (cfg : config.Provider) (w : Attempt) : option error :=
  match pop_NewConnection w with
  | Some err => Some (WithStackErr err)
  | None =>
  match Open w with
  | Some err => Some (WithStackErr err)
  | None =>
  match sql_NewPersister w with
  | Some err => Some err
  | None =>
  match p_Ping w with
  | Some err => Some err
  | None =>
      if (dbal_InMemoryDSN d =? config.DSN cfg)%string then p_MigrateUp w else None
  end end end end.

(** The connection one run of the closure asks for. *)
Definition attempt_conn (d : Deps) (ctx : Context) (cfg : config.Provider) : Connection :=
  let '(pool, idlePool, connMaxLifetime, cleanedDSN) :=
    sqlcon_ParseConnectionOptions d (config.DSN (corp_ContextualizeConfig d ctx cfg)) in
  {| URL := sqlcon_FinalizeDSN d cleanedDSN; IdlePool := idlePool;
     ConnMaxLifetime := connMaxLifetime; Pool := pool |}.

(** The events of one run of the closure. *)
Definition attempt_events (d : Deps) (ctx : Context) (cfg : config.Provider) (w : Attempt)
  : list Event :=
  [EvParseConnectionOptions (config.DSN (corp_ContextualizeConfig d ctx cfg));
   EvNewConnection (URL (attempt_conn d ctx cfg))] ++
  match pop_NewConnection w with
  | Some err => [EvWarnf err "Unable to connect to database, retrying."]
  | None => EvOpen ::
  match Open w with
  | Some err => [EvWarnf err "Unable to open database, retrying."]
  | None => EvNewPersister ::
  match sql_NewPersister w with
  | Some err => [EvWarnf err "Unable to initialize persister, retrying."]
  | None => EvPing ::
  match p_Ping w with
  | Some err => [EvWarnf err "Unable to ping database, retrying."]
  | None =>
      if (dbal_InMemoryDSN d =? config.DSN cfg)%string
      then [EvInfoln migration_notice; EvMigrateUp]
      else []
  end end end end.

(** The retry budget of [Init]. *)
Definition budget : time.Duration := time.Minute * 5.

(** Runs [0 .. n-1] of the closure failed within the budget, so that a run
    [n] takes place. *)
Definition retried (d : Deps) (cfg : config.Provider) (w : nat -> Attempt) (n : nat) : Prop :=
  forall j, (j < n)%nat ->
    attempt_error d cfg (w j) <> None /\ elapsed (w j) <= budget.

(** The events of runs [0 .. n]. *)
Definition events_upto (d : Deps) (ctx : Context) (cfg : config.Provider)
    (w : nat -> Attempt) (n : nat) : list Event :=
  flat_map (fun j => attempt_events d ctx cfg (w j)) (seq 0 (S n)).

(** The state a call of [Init] leaves ([s] itself when the fuel ran out). *)
Definition after {A} (o : option (Outcome A)) (s : Proc) : Proc :=
  match o with
  | Some r => final r
  | None => s
  end.

(** The process once [Init] has succeeded against a reachable database. *)
Definition started : Proc :=
  after (Init kratos.deps O kratos.all_fine 1 (reconfigure postgres_configured boot)) boot.

(** Run [n] takes place and ends the retry loop: it succeeds, or the
    budget is exceeded after it. *)
Definition last_run (d : Deps) (cfg : config.Provider) (w : nat -> Attempt) (n : nat) : Prop :=
  retried d cfg w n /\
  (attempt_error d cfg (w n) = None \/ budget < elapsed (w n)).


(** ** Calls on the registry *)

(** What a method hands back. *)
Inductive Value : Type :=
| VUnit
| VPtr (p : Ptr)
| VStore (cs : sessions.CookieStore)
| VStrategies (sts : list Strategy)
| VPersister (p : option persistence.Persister)
| VError (e : option error)
| VConfig (cfg : config.Provider).

Definition as_ {A} (inj : A -> Value) (m : M A) : M Value := x <- m ;; ret (inj x).

(** The getters of this file that construct what they return. *)
Module G.
Inductive Getter : Type :=
| Audit | LogoutHandler | HealthHandler | MetricsHandler | IdentityValidator
| Writer | Logger | IdentityHandler | SchemaHandler | SessionHandler | Hasher
| PasswordValidator | SelfServiceErrorHandler | SessionManager
| SelfServiceErrorManager | Courier | ContinuityManager | IdentityManager
| PrometheusManager
| Tracer (ctx : Context)
| CookieManager
| ContinuityCookieManager (ctx : Context)
| selfServiceStrategies | RegistrationStrategies | LoginStrategies
| VerificationStrategies
| ActiveCredentialsCounterStrategies (ctx : Context).
End G.

Definition getter (d : Deps) (g : G.Getter) : M Value :=
  match g with
  | G.Audit => as_ VPtr Audit
  | G.LogoutHandler => as_ VPtr (LogoutHandler d)
  | G.HealthHandler => as_ VPtr HealthHandler
  | G.MetricsHandler => as_ VPtr MetricsHandler
  | G.IdentityValidator => as_ VPtr IdentityValidator
  | G.Writer => as_ VPtr Writer
  | G.Logger => as_ VPtr Logger
  | G.IdentityHandler => as_ VPtr IdentityHandler
  | G.SchemaHandler => as_ VPtr SchemaHandler
  | G.SessionHandler => as_ VPtr SessionHandler
  | G.Hasher => as_ VPtr Hasher
  | G.PasswordValidator => as_ VPtr PasswordValidator
  | G.SelfServiceErrorHandler => as_ VPtr SelfServiceErrorHandler
  | G.SessionManager => as_ VPtr SessionManager
  | G.SelfServiceErrorManager => as_ VPtr SelfServiceErrorManager
  | G.Courier => as_ VPtr (Courier d)
  | G.ContinuityManager => as_ VPtr ContinuityManager
  | G.IdentityManager => as_ VPtr IdentityManager
  | G.PrometheusManager => as_ VPtr PrometheusManager
  | G.Tracer ctx => as_ VPtr (Tracer d ctx)
  | G.CookieManager => as_ VStore (CookieManager d)
  | G.ContinuityCookieManager ctx => as_ VStore (ContinuityCookieManager d ctx)
  | G.selfServiceStrategies => as_ VStrategies (selfServiceStrategies d)
  | G.RegistrationStrategies => as_ VStrategies (RegistrationStrategies d)
  | G.LoginStrategies => as_ VStrategies (LoginStrategies d)
  | G.VerificationStrategies => as_ VStrategies (VerificationStrategies d)
  | G.ActiveCredentialsCounterStrategies ctx =>
      as_ VStrategies (ActiveCredentialsCounterStrategies d ctx)
  end.

(** The getters that hand out the persister under one of its interfaces. *)
Module V.
Inductive View : Type :=
| Persister | ContinuityPersister | IdentityPool | PrivilegedIdentityPool
| RegistrationFlowPersister | RecoveryFlowPersister | LoginFlowPersister
| SettingsFlowPersister | SelfServiceErrorPersister | SessionPersister
| CourierPersister | RecoveryTokenPersister | VerificationTokenPersister.
End V.

Definition view (v : V.View) : M (option persistence.Persister) :=
  match v with
  | V.Persister => Persister
  | V.ContinuityPersister => ContinuityPersister
  | V.IdentityPool => IdentityPool
  | V.PrivilegedIdentityPool => PrivilegedIdentityPool
  | V.RegistrationFlowPersister => RegistrationFlowPersister
  | V.RecoveryFlowPersister => RecoveryFlowPersister
  | V.LoginFlowPersister => LoginFlowPersister
  | V.SettingsFlowPersister => SettingsFlowPersister
  | V.SelfServiceErrorPersister => SelfServiceErrorPersister
  | V.SessionPersister => SessionPersister
  | V.CourierPersister => CourierPersister
  | V.RecoveryTokenPersister => RecoveryTokenPersister
  | V.VerificationTokenPersister => VerificationTokenPersister
  end.

(** A call of a method of the registry, with its arguments and with what
    the world answers to it. *)
Module K.
Inductive Call : Type :=
| Get (g : G.Getter)
| View (v : V.View)
| WithLogger (lg : option Ptr)
| WithConfig (cfg : option config.Provider)
| WithCSRFHandler (h : option Ptr)
| CSRFHandler
| Configuration (ctx : Context)
| Ping (db : persistence.Persister -> option error)
| Init (ctx : Context) (w : nat -> Attempt) (fuel : nat).
End K.

Definition lift {A} (inj : A -> Value) (o : option (Outcome A)) : option (Outcome Value) :=
  match o with
  | Some (Returns x s) => Some (Returns (inj x) s)
  | Some (Panics v s) => Some (Panics v s)
  | Some (Exits s) => Some (Exits s)
  | None => None
  end.

Definition exec (d : Deps) (k : K.Call) (s : Proc) : option (Outcome Value) :=
  match k with
  | K.Get g => Some (getter d g s)
  | K.View v => Some (as_ VPersister (view v) s)
  | K.WithLogger lg => Some (as_ (fun _ => VUnit) (WithLogger lg) s)
  | K.WithConfig cfg => Some (as_ (fun _ => VUnit) (WithConfig cfg) s)
  | K.WithCSRFHandler h => Some (as_ (fun _ => VUnit) (WithCSRFHandler h) s)
  | K.CSRFHandler => Some (as_ VPtr CSRFHandler s)
  | K.Configuration ctx => Some (as_ VConfig (Configuration d ctx) s)
  | K.Ping db => Some (as_ VError (Ping db) s)
  | K.Init ctx w fuel => lift VError (Init d ctx w fuel s)
  end.

(** [run d s h s']: the calls of [h], made one after the other from state
    [s] with the outcomes recorded in [h], leave state [s']. *)
Inductive run (d : Deps) : Proc -> list (K.Call * Outcome Value) -> Proc -> Prop :=
| run_nil s : run d s [] s
| run_cons s k o h s' :
    exec d k s = Some o -> run d (final o) h s' -> run d s ((k, o) :: h) s'.

(** A call of [Init] that returned nil. *)
Definition Init_returned_nil (ko : K.Call * Outcome Value) : Prop :=
  match ko with
  | (K.Init _ _ _, Returns (VError None) _) => True
  | _ => False
  end.

(** A method that leaves the [persister] field as it found it, however it
    ends. *)
Definition keeps_persister {A} (m : M A) : Prop :=
  forall s, persister (reg (final (m s))) = persister (reg s).

(** ** The migration gate *)






(** ** Further descriptions used by the properties of the whole file *)

(** The five tests of [CanHandle] that decide its answer. *)
Definition CanHandle_short (dsn : string) : bool :=
  (dsn =? "memory")%string ||
  strings.HasPrefix dsn "mysql" ||
  strings.HasPrefix dsn "sqlite" ||
  strings.HasPrefix dsn "postgres" ||
  strings.HasPrefix dsn "cockroach" ||
  strings.HasPrefix dsn "crdb".

Definition implements_counter (st : Strategy) : bool :=
  is_ActiveCredentialsCounter (strategy_type st).

(** A method that leaves the part [proj] of the registry as it found it,
    however it ends. *)
Definition keeps {A B} (proj : RegistryDefault -> B) (m : M A) : Prop :=
  forall s, proj (reg (final (m s))) = proj (reg s).

(** The configuration after the calls [ks], made from a registry whose
    configuration was [init]: the argument of the last [WithConfig]. *)
Definition last_config (ks : list K.Call) (init : option config.Provider)
  : option config.Provider :=
  fold_left (fun acc k => match k with K.WithConfig cfg => cfg | _ => acc end) ks init.

(** The CSRF handler after the calls [ks]: the argument of the last
    [WithCSRFHandler]. *)
Definition last_csrf_handler (ks : list K.Call) (init : option Ptr) : option Ptr :=
  fold_left (fun acc k => match k with K.WithCSRFHandler h => h | _ => acc end) ks init.

(** The connections asked for and the warnings logged, among some events. *)
Definition is_NewConnection (e : Event) : bool :=
  match e with EvNewConnection _ => true | _ => false end.


(** The DSN [Init] connects to: the DSN of the contextualized
    configuration, cleaned by [ParseConnectionOptions] and finalized. *)
Definition connect_url (d : Deps) (ctx : Context) (cfg : config.Provider) : string :=
  sqlcon_FinalizeDSN d
    (snd (sqlcon_ParseConnectionOptions d (config.DSN (corp_ContextualizeConfig d ctx cfg)))).

(** [memo_le m1 m2]: what [m1] has memoized, [m2] still holds: the
    singletons (the logger and the CSRF handler apart, which have setters),
    the session cookie store and the strategy sets that are not empty. *)
Definition memo_le (m1 m2 : RegistryDefault) : Prop :=
  (forall f p, f <> F.l -> f <> F.nosurf ->
     singleton m1 f = Some p -> singleton m2 f = Some p) /\
  (forall cs, sessionsStore m1 = Some cs -> sessionsStore m2 = Some cs) /\
  (selfserviceStrategies m1 <> [] -> selfserviceStrategies m2 = selfserviceStrategies m1) /\
  (registrationStrategies m1 <> [] -> registrationStrategies m2 = registrationStrategies m1) /\
  (loginStrategies m1 <> [] -> loginStrategies m2 = loginStrategies m1) /\
  (verificationStrategies m1 <> [] -> verificationStrategies m2 = verificationStrategies m1) /\
  (activeCredentialsCounterStrategies m1 <> [] ->
     activeCredentialsCounterStrategies m2 = activeCredentialsCounterStrategies m1).

(** A method that replaces nothing memoized. *)
Definition extends {A} (m : M A) : Prop :=
  forall s, memo_le (reg s) (reg (final (m s))).

(** ** The CSRF token generator

    The field [csrfTokenGenerator] of the struct and its two methods, which
    touch no other field. A generator ([x.CSRFToken]) maps a request to a
    token; [DefaultCSRFToken] stands for [x.DefaultCSRFToken]. *)
Module csrf.

Definition Request := nat.
Definition CSRFToken := Request -> string.

Definition WithCSRFTokenGenerator (cg : option CSRFToken) (field : option CSRFToken)
  : option CSRFToken := cg.

Definition GenerateCSRFToken (DefaultCSRFToken : CSRFToken) (r : Request)
    (field : option CSRFToken) : string * option CSRFToken :=
  let field :=
    match field with
    | None => Some DefaultCSRFToken
    | Some g => Some g
    end in
  match field with
  | Some g => (g r, field)
  | None => (""%string, field)
  end.

Inductive Call : Type :=
| With (cg : option CSRFToken)
| Generate (r : Request).

(** The field after the calls [ks]. *)
Definition after_calls (DefaultCSRFToken : CSRFToken) (ks : list Call)
    (field : option CSRFToken) : option CSRFToken :=
  fold_left (fun f k =>
               match k with
               | With cg => WithCSRFTokenGenerator cg f
               | Generate r => snd (GenerateCSRFToken DefaultCSRFToken r f)
               end) ks field.

(** The generator last installed by [With] among [ks], if it was not nil. *)
Definition installed (ks : list Call) : option CSRFToken :=
  fold_left (fun acc k => match k with With cg => cg | Generate _ => acc end) ks None.

End csrf.

(** * Properties *)

(** ** Strings *)

Lemma HasPrefix_app (p rest : string) : strings.HasPrefix (p ++ rest) p = true.
Proof.
  unfold strings.HasPrefix. induction p as [|ch p IH]; simpl.
  - destruct rest; reflexivity.
  - destruct (ascii_dec ch ch) as [_|Hne]; [exact IH | now elim Hne].
Qed.

Lemma HasPrefix_inv (p : string) :
  forall s, strings.HasPrefix s p = true -> exists rest, s = p ++ rest.
Proof.
  unfold strings.HasPrefix. induction p as [|ch p IH]; intros s H.
  - exists s. reflexivity.
  - destruct s as [|ch' s]; simpl in H; [discriminate|].
    destruct (ascii_dec ch ch') as [->|_]; [|discriminate].
    destruct (IH s H) as [rest ->]. exists rest. reflexivity.
Qed.

Lemma HasPrefix_spec (s p : string) :
  strings.HasPrefix s p = true <-> exists rest, s = p ++ rest.
Proof.
  split.
  - apply HasPrefix_inv.
  - intros [rest ->]. apply HasPrefix_app.
Qed.

(** ** DSN schemes *)

(** C6: [CanHandle] answers true exactly for the DSN [memory] and for the
    strings that begin with one of sqlite, sqlite3, mysql, postgres,
    postgresql, cockroach, cockroachdb, crdb; for every other string it
    answers false. *)
Theorem CanHandle_exactly (dsn : string) :
  (CanHandle dsn = true <-> dsn = "memory" \/ begins_with_engine_prefix dsn) /\
  (CanHandle dsn = false <-> ~ (dsn = "memory" \/ begins_with_engine_prefix dsn)).
Proof.
  assert (E : CanHandle dsn = true <-> dsn = "memory" \/ begins_with_engine_prefix dsn).
  { unfold CanHandle, begins_with_engine_prefix, engine_prefixes.
    repeat rewrite orb_true_iff. rewrite String.eqb_eq.
    repeat rewrite HasPrefix_spec. cbn [In]. split.
    - intros H.
      repeat match type of H with _ \/ _ => destruct H as [H|H] end;
        try (left; exact H);
        destruct H as [rest ->]; right; eexists; exists rest;
        (split; [|reflexivity]); tauto.
    - intros [H|(p & rest & Hin & ->)]; [tauto|].
      repeat match type of Hin with _ \/ _ => destruct Hin as [<-|Hin] end;
        try contradiction; eauto 12. }
  split; [exact E|].
  rewrite <- E. destruct (CanHandle dsn); split; intros; congruence.
Qed.

(** ** The monad *)

Lemma bind_Returns {A B} (m : M A) (k : A -> M B) s y s2 :
  bind m k s = Returns y s2 ->
  exists x s1, m s = Returns x s1 /\ k x s1 = Returns y s2.
Proof.
  unfold bind. destruct (m s) as [x s1|v s1|s1]; try discriminate.
  intros H. exists x, s1. split; [reflexivity|exact H].
Qed.

Lemma bind_eq {A B} (m : M A) (k : A -> M B) s x s1 :
  m s = Returns x s1 -> bind m k s = k x s1.
Proof. unfold bind. intros ->. reflexivity. Qed.

Lemma with_reg_reg f s : reg (with_reg f s) = f (reg s).
Proof. reflexivity. Qed.

(** ** Strategy sets *)

Section Strategies.

Variable d : Deps.

(** The registered strategies are built on the first call and kept. *)
Lemma selfServiceStrategies_returns s :
  exists all s1,
    selfServiceStrategies d s = Returns all s1 /\
    selfserviceStrategies (reg s1) = all /\
    all <> [] /\
    c (reg s1) = c (reg s) /\
    registrationStrategies (reg s1) = registrationStrategies (reg s) /\
    loginStrategies (reg s1) = loginStrategies (reg s) /\
    verificationStrategies (reg s1) = verificationStrategies (reg s) /\
    (selfserviceStrategies (reg s) <> [] -> all = selfserviceStrategies (reg s) /\ s1 = s).
Proof.
  unfold selfServiceStrategies, bind, read.
  destruct (selfserviceStrategies (reg s)) as [|x xs] eqn:E; cbn.
  - eexists _, _. split; [reflexivity|]. cbn. rewrite ?E.
    repeat split; try discriminate; try congruence.
  - eexists _, _. split; [reflexivity|]. rewrite E.
    repeat split; try discriminate; try congruence.
Qed.

Lemma registrationStrategies_laws :
  field_laws registrationStrategies set_registrationStrategies.
Proof. split; try reflexivity. intros []; reflexivity. Qed.

Lemma loginStrategies_laws : field_laws loginStrategies set_loginStrategies.
Proof. split; try reflexivity. intros []; reflexivity. Qed.

Lemma verificationStrategies_laws :
  field_laws verificationStrategies set_verificationStrategies.
Proof. split; try reflexivity. intros []; reflexivity. Qed.

Lemma activeCredentialsCounterStrategies_laws :
  field_laws activeCredentialsCounterStrategies set_activeCredentialsCounterStrategies.
Proof. split; try reflexivity. intros []; reflexivity. Qed.

Lemma with_reg_id s : with_reg (fun m => m) s = s.
Proof. destruct s; reflexivity. Qed.

Lemma strategy_enabled_eq cfg st s :
  c (reg s) = Some cfg -> strategy_enabled st s = Returns (enabled_in cfg st) s.
Proof. unfold strategy_enabled, m_c, bind, read. intros ->. reflexivity. Qed.

(** The loop of [RegistrationStrategies] and [LoginStrategies]: it appends
    the strategies that pass the type assertion and are enabled. *)
Lemma range_gated get set (impl : Strategy -> bool) cfg (all : list Strategy) :
  field_laws get set ->
  forall s, c (reg s) = Some cfg ->
    range all (fun st =>
      if impl st then
        en <- strategy_enabled st ;;
        if en then write (fun m => set (get m ++ [st])%list m) else ret tt
      else ret tt) s
    = Returns tt (with_reg (fun m =>
        set (get m ++ filter (fun st => impl st && enabled_in cfg st) all)%list m) s).
Proof.
  intros L. induction all as [|st rest IH]; intros s Hc; cbn [range filter].
  - unfold ret. f_equal. destruct s as [m h t]. unfold with_reg. cbn.
    rewrite app_nil_r, (set_get _ _ L). reflexivity.
  - unfold bind at 1. destruct (impl st); cbn [andb].
    + unfold bind at 1. rewrite (strategy_enabled_eq cfg st s Hc).
      destruct (enabled_in cfg st).
      * unfold write. rewrite IH by (cbn; rewrite (c_set _ _ L); exact Hc).
        f_equal. destruct s as [m h t]. unfold with_reg. cbn. f_equal.
        rewrite (get_set _ _ L), (set_set _ _ L), <- app_assoc. reflexivity.
      * unfold ret. apply IH, Hc.
    + unfold ret. apply IH, Hc.
Qed.

(** The loop of [VerificationStrategies]: the type assertion alone. *)
Lemma range_ungated get set (impl : Strategy -> bool) (all : list Strategy) :
  field_laws get set ->
  forall s,
    range all (fun st =>
      if impl st then write (fun m => set (get m ++ [st])%list m) else ret tt) s
    = Returns tt (with_reg (fun m => set (get m ++ filter impl all)%list m) s).
Proof.
  intros L. induction all as [|st rest IH]; intros s; cbn [range filter].
  - unfold ret. f_equal. destruct s as [m h t]. unfold with_reg. cbn.
    rewrite app_nil_r, (set_get _ _ L). reflexivity.
  - unfold bind at 1. destruct (impl st).
    + unfold write. rewrite IH.
      f_equal. destruct s as [m h t]. unfold with_reg. cbn. f_equal.
      rewrite (get_set _ _ L), (set_set _ _ L), <- app_assoc. reflexivity.
    + unfold ret. apply IH.
Qed.

Lemma RegistrationStrategies_build s cfg all s1 :
  c (reg s) = Some cfg ->
  registrationStrategies (reg s) = [] ->
  selfServiceStrategies d s = Returns all s1 ->
  let built := filter (fun st => implements_registration st && enabled_in cfg st) all in
  RegistrationStrategies d s
  = Returns built (with_reg (set_registrationStrategies built) s1).
Proof.
  intros Hc He Hall built.
  destruct (selfServiceStrategies_returns s) as (all' & s1' & E & _ & _ & Hc1 & Hr1 & _).
  rewrite Hall in E. injection E as <- <-.
  unfold RegistrationStrategies. unfold bind at 1, read at 1. rewrite He. cbn [length Nat.eqb].
  unfold bind at 1. unfold bind at 1. rewrite Hall.
  pose proof (range_gated registrationStrategies set_registrationStrategies
                implements_registration cfg all registrationStrategies_laws s1) as R.
  unfold implements_registration in R. rewrite R by congruence.
  unfold read, with_reg. cbn. rewrite Hr1, He. reflexivity.
Qed.

Lemma LoginStrategies_build s cfg all s1 :
  c (reg s) = Some cfg ->
  loginStrategies (reg s) = [] ->
  selfServiceStrategies d s = Returns all s1 ->
  let built := filter (fun st => implements_login st && enabled_in cfg st) all in
  LoginStrategies d s = Returns built (with_reg (set_loginStrategies built) s1).
Proof.
  intros Hc He Hall built.
  destruct (selfServiceStrategies_returns s) as (all' & s1' & E & _ & _ & Hc1 & _ & Hl1 & _).
  rewrite Hall in E. injection E as <- <-.
  unfold LoginStrategies. unfold bind at 1, read at 1. rewrite He. cbn [length Nat.eqb].
  unfold bind at 1. unfold bind at 1. rewrite Hall.
  pose proof (range_gated loginStrategies set_loginStrategies
                implements_login cfg all loginStrategies_laws s1) as R.
  unfold implements_login in R. rewrite R by congruence.
  unfold read, with_reg. cbn. rewrite Hl1, He. reflexivity.
Qed.

Lemma VerificationStrategies_build s all s1 :
  verificationStrategies (reg s) = [] ->
  selfServiceStrategies d s = Returns all s1 ->
  let built := filter implements_verification all in
  VerificationStrategies d s
  = Returns built (with_reg (set_verificationStrategies built) s1).
Proof.
  intros He Hall built.
  destruct (selfServiceStrategies_returns s) as (all' & s1' & E & _ & _ & _ & _ & _ & Hv1 & _).
  rewrite Hall in E. injection E as <- <-.
  unfold VerificationStrategies. unfold bind at 1, read at 1. rewrite He. cbn [length Nat.eqb].
  unfold bind at 1. unfold bind at 1. rewrite Hall.
  pose proof (range_ungated verificationStrategies set_verificationStrategies
                implements_verification all verificationStrategies_laws s1) as R.
  unfold implements_verification in R. rewrite R.
  unfold read, with_reg. cbn. rewrite Hv1, He. reflexivity.
Qed.

(** The registered strategies do not depend on the configuration. *)
Lemma selfServiceStrategies_reconfigure cfg s all s1 :
  selfServiceStrategies d s = Returns all s1 ->
  selfServiceStrategies d (reconfigure cfg s) = Returns all (reconfigure cfg s1).
Proof.
  unfold selfServiceStrategies, bind, read. cbn.
  destruct (selfserviceStrategies (reg s)) as [|x xs] eqn:E; cbn.
  - intros H. injection H as <- <-. reflexivity.
  - rewrite ?E. intros H. injection H as <- <-. cbn. rewrite ?E. reflexivity.
Qed.

Lemma registered_eq s all s1 :
  selfServiceStrategies d s = Returns all s1 -> registered d s = all.
Proof. unfold registered. intros ->. reflexivity. Qed.

Lemma RegistrationStrategies_memoized s :
  registrationStrategies (reg s) <> [] ->
  RegistrationStrategies d s = Returns (registrationStrategies (reg s)) s.
Proof.
  intros H. unfold RegistrationStrategies, bind, read.
  destruct (registrationStrategies (reg s)) eqn:E; [congruence|]. cbn.
  rewrite E. reflexivity.
Qed.

Lemma LoginStrategies_memoized s :
  loginStrategies (reg s) <> [] ->
  LoginStrategies d s = Returns (loginStrategies (reg s)) s.
Proof.
  intros H. unfold LoginStrategies, bind, read.
  destruct (loginStrategies (reg s)) eqn:E; [congruence|]. cbn.
  rewrite E. reflexivity.
Qed.

Lemma VerificationStrategies_memoized s :
  verificationStrategies (reg s) <> [] ->
  VerificationStrategies d s = Returns (verificationStrategies (reg s)) s.
Proof.
  intros H. unfold VerificationStrategies, bind, read.
  destruct (verificationStrategies (reg s)) eqn:E; [congruence|]. cbn.
  rewrite E. reflexivity.
Qed.

Lemma nil_or_not {A} (xs : list A) : xs = [] \/ xs <> [].
Proof. destruct xs; [left; reflexivity | right; discriminate]. Qed.

(** With a configuration set, [RegistrationStrategies] returns, and what it
    returns is the field it leaves behind. *)
Lemma RegistrationStrategies_returns s cfg :
  c (reg s) = Some cfg ->
  exists built s',
    RegistrationStrategies d s = Returns built s' /\
    registrationStrategies (reg s') = built /\
    (registrationStrategies (reg s) = [] ->
       built = filter (fun st => implements_registration st && enabled_in cfg st)
                 (registered d s)) /\
    (registrationStrategies (reg s) <> [] ->
       built = registrationStrategies (reg s) /\ s' = s).
Proof.
  intros Hc. destruct (nil_or_not (registrationStrategies (reg s))) as [He|Hne].
  - destruct (selfServiceStrategies_returns s) as (all & s1 & E & _).
    eexists _, _. split; [apply (RegistrationStrategies_build s cfg all s1 Hc He E)|].
    rewrite (registered_eq s all s1 E).
    split; [reflexivity|]. split; [reflexivity|]. congruence.
  - eexists _, _. split; [apply (RegistrationStrategies_memoized s Hne)|].
    split; [reflexivity|]. split; [congruence|]. split; reflexivity.
Qed.

Lemma LoginStrategies_returns s cfg :
  c (reg s) = Some cfg ->
  exists built s',
    LoginStrategies d s = Returns built s' /\
    loginStrategies (reg s') = built /\
    (loginStrategies (reg s) = [] ->
       built = filter (fun st => implements_login st && enabled_in cfg st)
                 (registered d s)) /\
    (loginStrategies (reg s) <> [] ->
       built = loginStrategies (reg s) /\ s' = s).
Proof.
  intros Hc. destruct (nil_or_not (loginStrategies (reg s))) as [He|Hne].
  - destruct (selfServiceStrategies_returns s) as (all & s1 & E & _).
    eexists _, _. split; [apply (LoginStrategies_build s cfg all s1 Hc He E)|].
    rewrite (registered_eq s all s1 E).
    split; [reflexivity|]. split; [reflexivity|]. congruence.
  - eexists _, _. split; [apply (LoginStrategies_memoized s Hne)|].
    split; [reflexivity|]. split; [congruence|]. split; reflexivity.
Qed.

End Strategies.

(** C2, as the code has it: when nothing is memoized yet, the registration
    set and the login set are built as exactly the registered strategies
    that pass the type assertion of the capability and are enabled in the
    configuration, in registration order; the verification set is built as
    exactly the registered strategies that pass the type assertion,
    whatever the configuration says about them. *)
Theorem strategy_sets_built (d : Deps) (s : Proc) (cfg : config.Provider) :
  c (reg s) = Some cfg ->
  (registrationStrategies (reg s) = [] ->
     exists s', RegistrationStrategies d s
       = Returns (filter (fun st => implements_registration st && enabled_in cfg st)
                    (registered d s)) s') /\
  (loginStrategies (reg s) = [] ->
     exists s', LoginStrategies d s
       = Returns (filter (fun st => implements_login st && enabled_in cfg st)
                    (registered d s)) s') /\
  (verificationStrategies (reg s) = [] ->
     forall cfg', exists s', VerificationStrategies d (reconfigure cfg' s)
       = Returns (filter implements_verification (registered d s)) s').
Proof.
  intros Hc.
  destruct (selfServiceStrategies_returns d s) as (all & s1 & E & _).
  rewrite (registered_eq d s all s1 E).
  split; [|split].
  - intros He. eexists. apply (RegistrationStrategies_build d s cfg all s1 Hc He E).
  - intros He. eexists. apply (LoginStrategies_build d s cfg all s1 Hc He E).
  - intros He cfg'. eexists.
    apply (VerificationStrategies_build d (reconfigure cfg' s) all (reconfigure cfg' s1)).
    + exact He.
    + apply selfServiceStrategies_reconfigure, E.
Qed.

Lemma strategy_sets_built_witness :
  (exists s', RegistrationStrategies kratos.deps (reconfigure link_disabled boot)
     = Returns (filter (fun st => implements_registration st && enabled_in link_disabled st)
                  (registered kratos.deps (reconfigure link_disabled boot))) s') /\
  (exists s', VerificationStrategies kratos.deps (reconfigure all_enabled (reconfigure link_disabled boot))
     = Returns (filter implements_verification
                  (registered kratos.deps (reconfigure link_disabled boot))) s').
Proof.
  destruct (strategy_sets_built kratos.deps (reconfigure link_disabled boot) link_disabled eq_refl)
    as (R & _ & V).
  split; [exact (R eq_refl) | exact (V eq_refl all_enabled)].
Defined.

(** C2 as stated fails for verification: with the link mechanism disabled in
    the configuration, the verification set still holds the link strategy. *)
Lemma VerificationStrategies_keeps_disabled :
  exists st s',
    VerificationStrategies kratos.deps (reconfigure link_disabled boot) = Returns [st] s' /\
    implements_verification st = true /\
    enabled_in link_disabled st = false.
Proof. eexists _, _. repeat split. Qed.

(** C1, as the code has it: [RegistrationStrategies] and [LoginStrategies]
    evaluate the enablement of the mechanisms against the configuration of
    the call only while nothing is memoized; a set that is not empty is
    memoized, and every later call returns it unchanged whatever the
    configuration says then (a mechanism disabled since is still in it, one
    enabled since is not added). *)
Theorem enablement_memoized (d : Deps) (s : Proc) (cfg : config.Provider) :
  c (reg s) = Some cfg ->
  (exists built s',
     RegistrationStrategies d s = Returns built s' /\
     (registrationStrategies (reg s) = [] ->
        built = filter (fun st => implements_registration st && enabled_in cfg st)
                  (registered d s)) /\
     (built <> [] -> forall cfg',
        RegistrationStrategies d (reconfigure cfg' s') = Returns built (reconfigure cfg' s'))) /\
  (exists built s',
     LoginStrategies d s = Returns built s' /\
     (loginStrategies (reg s) = [] ->
        built = filter (fun st => implements_login st && enabled_in cfg st)
                  (registered d s)) /\
     (built <> [] -> forall cfg',
        LoginStrategies d (reconfigure cfg' s') = Returns built (reconfigure cfg' s'))).
Proof.
  intros Hc. split.
  - destruct (RegistrationStrategies_returns d s cfg Hc) as (built & s' & E & Hf & Hnil & _).
    exists built, s'. split; [exact E|]. split; [exact Hnil|].
    intros Hne cfg'.
    rewrite (RegistrationStrategies_memoized d (reconfigure cfg' s')); cbn; rewrite Hf.
    + reflexivity.
    + exact Hne.
  - destruct (LoginStrategies_returns d s cfg Hc) as (built & s' & E & Hf & Hnil & _).
    exists built, s'. split; [exact E|]. split; [exact Hnil|].
    intros Hne cfg'.
    rewrite (LoginStrategies_memoized d (reconfigure cfg' s')); cbn; rewrite Hf.
    + reflexivity.
    + exact Hne.
Qed.

Lemma enablement_memoized_witness :
  exists built s',
    RegistrationStrategies kratos.deps (reconfigure all_enabled boot) = Returns built s' /\
    built <> [] /\
    RegistrationStrategies kratos.deps (reconfigure none_enabled s')
      = Returns built (reconfigure none_enabled s').
Proof.
  destruct (enablement_memoized kratos.deps (reconfigure all_enabled boot) all_enabled eq_refl)
    as [(built & s' & E & Hb & Hm) _].
  exists built, s'. split; [exact E|].
  assert (Hne : built <> []).
  { rewrite (Hb eq_refl). vm_compute. discriminate. }
  split; [exact Hne | exact (Hm Hne none_enabled)].
Defined.

(** C1 as stated fails: the password mechanism is enabled at the first call
    and disabled in the configuration before the second; the second call
    still returns the password strategy. *)
Lemma disabled_mechanism_still_returned :
  exists first s1 second s2 st,
    RegistrationStrategies kratos.deps (reconfigure all_enabled boot) = Returns first s1 /\
    RegistrationStrategies kratos.deps (reconfigure password_disabled s1) = Returns second s2 /\
    In st second /\
    ID (strategy_type st) = "password" /\
    enabled_in password_disabled st = false.
Proof.
  eexists _, _, _, _, _. split; [reflexivity|]. split; [reflexivity|].
  split; [left; reflexivity|]. split; reflexivity.
Qed.

(** ** float64 *)

Lemma digits2_pos_le (p : positive) :
  forall n, 0 <= n -> Z.pos p < 2 ^ n -> Z.pos (digits2_pos p) <= n.
Proof.
  induction p as [p IH|p IH|]; intros n Hn H; cbn [digits2_pos].
  - assert (n <> 0) by (intros ->; cbn in H; lia).
    replace n with (Z.succ (n - 1)) in H by lia. rewrite Z.pow_succ_r in H by lia.
    specialize (IH (n - 1) ltac:(lia) ltac:(lia)). lia.
  - assert (n <> 0) by (intros ->; cbn in H; lia).
    replace n with (Z.succ (n - 1)) in H by lia. rewrite Z.pow_succ_r in H by lia.
    specialize (IH (n - 1) ltac:(lia) ltac:(lia)). lia.
  - assert (n <> 0) by (intros ->; cbn in H; lia). lia.
Qed.

Lemma digits2_pos_iter_xO (p d : positive) :
  Z.pos (digits2_pos (Pos.iter xO p d)) = Z.pos (digits2_pos p) + Z.pos d.
Proof.
  induction d as [|d IH] using Pos.peano_ind.
  - cbn. lia.
  - rewrite Pos.iter_succ. cbn [digits2_pos]. lia.
Qed.

Lemma iter_xO_value (p d : positive) :
  Z.pos (Pos.iter xO p d) = Z.pos p * 2 ^ Z.pos d.
Proof.
  induction d as [|d IH] using Pos.peano_ind.
  - cbn. lia.
  - rewrite Pos.iter_succ, Pos2Z.inj_succ, Z.pow_succ_r by lia.
    rewrite Pos2Z.inj_xO, IH. lia.
Qed.

Lemma round_aux_exact (m : positive) (e : Z) :
  Z.pos (digits2_pos m) = 53 -> -1074 <= e <= 971 ->
  binary_round_aux 53 1024 false (Z.pos m) e loc_Exact = S754_finite false m e.
Proof.
  intros Hd He.
  assert (Hs : shr_fexp 53 1024 (Z.pos m) e loc_Exact
               = ({| shr_m := Z.pos m; shr_r := false; shr_s := false |}, e)).
  { unfold shr_fexp, fexp, emin. cbn [Zdigits2]. rewrite Hd.
    replace (Z.max (53 + e - 53) (3 - 1024 - 53) - e) with 0 by lia. reflexivity. }
  unfold binary_round_aux. rewrite Hs. cbn [shr_m loc_of_shr_record round_nearest_even].
  rewrite Hs. cbn [shr_m].
  destruct (Z.leb_spec e (1024 - 53)); [reflexivity | lia].
Qed.

Lemma normalize_int (p : positive) :
  Z.pos p < 2 ^ 53 ->
  exists m e, binary_normalize 53 1024 (Z.pos p) 0 false = S754_finite false m e /\
              -52 <= e <= 0 /\ Z.pos m = Z.pos p * 2 ^ (- e).
Proof.
  intros H. pose proof (digits2_pos_le p 53 ltac:(lia) H) as Hd.
  unfold binary_normalize, binary_round, shl_align, fexp, emin.
  replace (Z.max (Z.pos (digits2_pos p) + 0 - 53) (3 - 1024 - 53) - 0)
    with (Z.pos (digits2_pos p) - 53) by lia.
  destruct (Z.pos (digits2_pos p) - 53) as [|q|q] eqn:E; try lia.
  - exists p, 0. split; [|split; [lia | cbn; lia]].
    replace (Z.max (Z.pos (digits2_pos p) + 0 - 53) (3 - 1024 - 53)) with 0 by lia.
    apply round_aux_exact; lia.
  - exists (Pos.iter xO p q), (Z.neg q).
    replace (Z.max (Z.pos (digits2_pos p) + 0 - 53) (3 - 1024 - 53)) with (Z.neg q) by lia.
    split; [|split; [lia | rewrite iter_xO_value; reflexivity]].
    apply round_aux_exact; [rewrite digits2_pos_iter_xO; lia | lia].
Qed.

(** [Seconds] is exact on a whole number of seconds: the float64 of the
    seconds is exact below 2^53 and the fraction added to it is zero. *)
Lemma Seconds_whole (sec : Z) :
  0 <= sec < 2 ^ 53 ->
  time.int_of_f64 (time.Seconds (sec * time.Second)) = sec.
Proof.
  intros H. unfold time.Seconds.
  rewrite Z.quot_mul, Z.rem_mul by discriminate.
  replace (time.f64_of_int 0) with (S754_zero false) by reflexivity.
  replace (time.f64_of_int 1000000000)
    with (S754_finite false 8388608000000000 (-23)) by (vm_compute; reflexivity).
  cbn [time.f64_div SFdiv xorb].
  destruct sec as [|p|p]; [reflexivity | | lia].
  destruct (normalize_int p ltac:(lia)) as (m & e & E & He & Hm).
  unfold time.f64_of_int. rewrite E. cbn [time.f64_add SFadd time.int_of_f64].
  destruct (Z.leb_spec 0 e).
  - replace e with 0 in * by lia. cbn in Hm. lia.
  - rewrite Hm, Z.quot_mul; [reflexivity|]. apply Z.pow_nonzero; lia.
Qed.

(** ** Cookie stores *)

(** C7, as the code has it: the store [CookieManager] builds is HTTP-only,
    secure exactly when dev mode is off, takes domain, path and same-site
    from the configuration only when they are non-empty (non-zero) and keeps
    the defaults of [NewCookieStore] otherwise; its max-age is 0 when
    persistent cookies are disabled and [int(SessionLifespan().Seconds())]
    when they are enabled: the float64 number of seconds of the lifespan,
    truncated, which is the number of seconds of a lifespan that is a whole
    number of seconds. *)
Theorem CookieManager_options (d : Deps) (s : Proc) (cfg : config.Provider) :
  c (reg s) = Some cfg ->
  sessionsStore (reg s) = None ->
  exists cs s',
    CookieManager d s = Returns cs s' /\
    sessionsStore (reg s') = Some cs /\
    let o := sessions.Options_ cs in
    let o0 := sessions_NewCookieStore_Options d in
    sessions.HttpOnly o = true /\
    sessions.Secure o = negb (config.IsInsecureDevMode cfg) /\
    sessions.MaxAge o =
      (if config.SessionPersistentCookie cfg
       then time.int_of_f64 (time.Seconds (config.SessionLifespan cfg))
       else 0) /\
    (forall sec, 0 <= sec < 2 ^ 53 ->
       config.SessionPersistentCookie cfg = true ->
       config.SessionLifespan cfg = sec * time.Second ->
       sessions.MaxAge o = sec) /\
    sessions.Domain o =
      (if (config.SessionDomain cfg =? "")%string
       then sessions.Domain o0 else config.SessionDomain cfg) /\
    sessions.Path o =
      (if (config.SessionPath cfg =? "")%string
       then sessions.Path o0 else config.SessionPath cfg) /\
    sessions.SameSite o =
      (if config.SessionSameSiteMode cfg =? 0
       then sessions.SameSite o0 else config.SessionSameSiteMode cfg).
Proof.
  intros Hc Hs. unfold CookieManager, bind, read, m_c, sessions_NewCookieStore, new, write, ret.
  rewrite Hs. cbn. rewrite Hc. cbn. eexists _, _. split; [reflexivity|]. split; [reflexivity|].
  unfold session_cookie_options. cbn.
  assert (Hw : forall sec, 0 <= sec < 2 ^ 53 ->
                 config.SessionLifespan cfg = sec * time.Second ->
                 time.int_of_f64 (time.Seconds (config.SessionLifespan cfg)) = sec).
  { intros sec Hsec ->. apply Seconds_whole, Hsec. }
  destruct (config.SessionPersistentCookie cfg),
    (config.SessionDomain cfg =? "")%string,
    (config.SessionPath cfg =? "")%string,
    (config.SessionSameSiteMode cfg =? 0); cbn; repeat split;
    try (intros; discriminate); intros sec Hsec _ Hl; apply (Hw sec Hsec Hl).
Qed.

Lemma CookieManager_options_witness :
  exists cs s',
    CookieManager kratos.deps (reconfigure all_enabled boot) = Returns cs s' /\
    sessions.MaxAge (sessions.Options_ cs) = 86400 /\
    sessions.Path (sessions.Options_ cs) = "/".
Proof.
  destruct (CookieManager_options kratos.deps (reconfigure all_enabled boot) all_enabled
              eq_refl eq_refl)
    as (cs & s' & E & _ & _ & _ & _ & Hage & _ & Hpath & _).
  exists cs, s'. split; [exact E|]. split.
  - apply (Hage 86400); [lia | reflexivity | reflexivity].
  - rewrite Hpath. reflexivity.
Defined.

(** C7 as stated fails on the max-age of a persistent cookie: for a
    lifespan of 16777216.999999999 s the float64 sum of [Seconds] rounds to
    16777217 (float64 values of that size are 2^-28 apart), so the max-age
    is one more than the whole seconds of the lifespan. *)
Lemma max_age_not_whole_seconds :
  config.SessionPersistentCookie long_lifespan = true /\
  Z.quot (config.SessionLifespan long_lifespan) time.Second = 16777216 /\
  option_map (fun cs => sessions.MaxAge (sessions.Options_ cs))
    (returned (CookieManager kratos.deps (reconfigure long_lifespan boot)))
  = Some 16777217.
Proof. split; [reflexivity|]. split; vm_compute; reflexivity. Qed.

(** C8, as the code has it: the store [ContinuityCookieManager] returns is
    same-site-lax, HTTP-only and secure exactly when dev mode is off in the
    contextualized configuration; max-age, path and domain are not assigned
    and stay what [NewCookieStore] made them. *)
Theorem ContinuityCookieManager_options (d : Deps) (ctx : Context) (s : Proc)
    (cfg : config.Provider) :
  c (reg s) = Some cfg ->
  exists cs s',
    ContinuityCookieManager d ctx s = Returns cs s' /\
    let o := sessions.Options_ cs in
    let o0 := sessions_NewCookieStore_Options d in
    sessions.SameSite o = http.SameSiteLaxMode /\
    sessions.HttpOnly o = true /\
    sessions.Secure o = negb (config.IsInsecureDevMode (corp_ContextualizeConfig d ctx cfg)) /\
    sessions.MaxAge o = sessions.MaxAge o0 /\
    sessions.Path o = sessions.Path o0 /\
    sessions.Domain o = sessions.Domain o0.
Proof.
  intros Hc.
  unfold ContinuityCookieManager, Configuration, bind, read, sessions_NewCookieStore, new, ret.
  cbn. rewrite Hc. cbn. rewrite ?Hc. cbn. eexists _, _. split; [reflexivity|].
  cbn. repeat split.
Qed.

Lemma ContinuityCookieManager_options_witness :
  exists cs s',
    ContinuityCookieManager kratos.deps O (reconfigure all_enabled boot) = Returns cs s' /\
    sessions.SameSite (sessions.Options_ cs) = http.SameSiteLaxMode /\
    sessions.Secure (sessions.Options_ cs) = true.
Proof.
  destruct (ContinuityCookieManager_options kratos.deps O (reconfigure all_enabled boot)
              all_enabled eq_refl)
    as (cs & s' & E & Hlax & _ & Hsec & _).
  exists cs, s'. split; [exact E|]. split; [exact Hlax | exact Hsec].
Defined.

(** C8 as stated fails on the session cookie: with the defaults of
    gorilla/sessions the store has a max-age of 30 days, not 0. *)
Lemma continuity_cookie_not_session_cookie :
  exists cs s',
    ContinuityCookieManager kratos.deps O (reconfigure all_enabled boot) = Returns cs s' /\
    sessions.MaxAge (sessions.Options_ cs) = 2592000 /\
    sessions.MaxAge (sessions.Options_ cs) <> 0.
Proof.
  eexists _, _. split; [reflexivity|]. split; [reflexivity|]. cbn. discriminate.
Qed.

(** ** Bootstrap *)

Ltac run_step :=
  match goal with
  | |- context [match ?x with Some _ => _ | None => _ end] =>
      lazymatch x with
      | context [match _ with _ => _ end] => fail
      | _ => destruct x eqn:?
      end
  | |- context [if ?x then _ else _] =>
      lazymatch x with
      | context [match _ with _ => _ end] => fail
      | _ => destruct x eqn:?
      end
  end.

(** One run of the closure does what [attempt_error] and [attempt_events]
    say; it sets the persister exactly when it returns [nil]. *)
Lemma bootstrap_run (d : Deps) (ctx : Context) (w : Attempt) (s : Proc) cfg :
  c (reg s) = Some cfg ->
  exists s',
    bootstrap d ctx w s = Returns (attempt_error d cfg w) s' /\
    c (reg s') = Some cfg /\
    trace s' = (trace s ++ attempt_events d ctx cfg w)%list /\
    (heap s <= heap s')%nat /\
    persister (reg s') =
      match attempt_error d cfg w with
      | None => Some {| persistence.addr := heap s;
                        persistence.conn := attempt_conn d ctx cfg |}
      | Some _ => persister (reg s)
      end /\
    (attempt_error d cfg w = None -> (heap s < heap s')%nat).
Proof.
  intros Hc.
  unfold bootstrap, attempt_error, attempt_events, attempt_conn, Configuration, m_c,
    warn, Logger, lazily, bind, read, write, emit, new, ret, errors.WithStack.
  cbn. rewrite Hc. cbn.
  destruct (sqlcon_ParseConnectionOptions d (config.DSN (corp_ContextualizeConfig d ctx cfg)))
    as [[[pool idle] life] dsn].
  cbn. repeat (run_step; cbn; rewrite ?Hc; cbn);
    (eexists; split; [reflexivity|]; cbn; rewrite <- ?app_assoc; cbn;
     repeat split; auto; try discriminate; lia).
Qed.

Section Retry.

Variables (d : Deps) (ctx : Context) (w : nat -> Attempt) (cfg : config.Provider).

Let operation := fun i => bootstrap d ctx (w i).
Let bc := {| backoff.MaxElapsedTime := time.Minute * 5 |}.
Let clock := fun i => elapsed (w i).

Lemma stops_budget e : backoff.stops bc e = (budget <? e).
Proof. reflexivity. Qed.

(** Runs [i .. i+n-1] fail within the budget and run [i+n] ends the loop:
    with more fuel than runs, [Retry] returns what run [i+n] returned. *)
Lemma Retry_ends n :
  forall i s fuel,
    c (reg s) = Some cfg ->
    (forall j, (i <= j < i + n)%nat ->
       attempt_error d cfg (w j) <> None /\ elapsed (w j) <= budget) ->
    (attempt_error d cfg (w (i + n)) = None \/ budget < elapsed (w (i + n))) ->
    (n < fuel)%nat ->
    exists s',
      backoff.Retry fuel operation bc clock i s
        = Some (Returns (attempt_error d cfg (w (i + n))) s') /\
      c (reg s') = Some cfg /\
      trace s' = (trace s ++ flat_map (fun j => attempt_events d ctx cfg (w j))
                               (seq i (S n)))%list /\
      (heap s <= heap s')%nat /\
      match attempt_error d cfg (w (i + n)) with
      | None => exists addr,
          persister (reg s') = Some {| persistence.addr := addr;
                                       persistence.conn := attempt_conn d ctx cfg |} /\
          (heap s <= addr < heap s')%nat
      | Some _ => persister (reg s') = persister (reg s)
      end.
Proof.
  induction n as [|n IH]; intros i s fuel Hc Hfail Hend Hfuel.
  - destruct fuel as [|fuel]; [lia|].
    replace (i + 0)%nat with i in * by lia.
    destruct (bootstrap_run d ctx (w i) s cfg Hc) as (s1 & E & Hc1 & Ht & Hh & Hp & Hlt).
    cbn [backoff.Retry]. unfold operation at 1. rewrite E.
    destruct (attempt_error d cfg (w i)) as [err|] eqn:Ea.
    + rewrite stops_budget. unfold clock.
      destruct Hend as [?|Hend]; [discriminate|].
      apply Z.ltb_lt in Hend. rewrite Hend.
      exists s1. cbn [seq flat_map]. rewrite app_nil_r. auto.
    + exists s1. cbn [seq flat_map]. rewrite app_nil_r.
      repeat split; auto. exists (heap s). split; [exact Hp|]. specialize (Hlt eq_refl). lia.
  - destruct fuel as [|fuel]; [lia|].
    destruct (bootstrap_run d ctx (w i) s cfg Hc) as (s1 & E & Hc1 & Ht & Hh & Hp & Hlt).
    cbn [backoff.Retry]. unfold operation at 1. rewrite E.
    destruct (Hfail i ltac:(lia)) as [Hne Hle].
    destruct (attempt_error d cfg (w i)) as [err|] eqn:Ea; [|congruence].
    rewrite stops_budget. unfold clock at 1.
    apply Z.ltb_ge in Hle. rewrite Hle.
    replace (i + S n)%nat with (S i + n)%nat in * by lia.
    destruct (IH (S i) s1 fuel Hc1) as (s' & E' & Hc' & Ht' & Hh' & Hp').
    + intros j Hj. apply Hfail. lia.
    + exact Hend.
    + lia.
    + exists s'. split; [exact E'|]. split; [exact Hc'|]. split.
      * rewrite Ht', Ht. cbn [seq flat_map]. rewrite <- app_assoc. reflexivity.
      * split; [lia|].
        destruct (attempt_error d cfg (w (S i + n))).
        -- congruence.
        -- destruct Hp' as (addr & ? & ?). exists addr. split; [assumption|lia].
Qed.

(** Whatever [Retry] returns is what some run [i+n] returned, after [n]
    failed runs within the budget; an error is returned only once the
    budget is exceeded. *)
Lemma Retry_returned fuel :
  forall i s r s',
    c (reg s) = Some cfg ->
    backoff.Retry fuel operation bc clock i s = Some (Returns r s') ->
    exists n, (n < fuel)%nat /\
      (forall j, (i <= j < i + n)%nat ->
         attempt_error d cfg (w j) <> None /\ elapsed (w j) <= budget) /\
      r = attempt_error d cfg (w (i + n)) /\
      (r = None \/ budget < elapsed (w (i + n))).
Proof.
  induction fuel as [|fuel IH]; intros i s r s' Hc H; [discriminate|].
  destruct (bootstrap_run d ctx (w i) s cfg Hc) as (s1 & E & Hc1 & _).
  cbn [backoff.Retry] in H. unfold operation at 1 in H. rewrite E in H.
  destruct (attempt_error d cfg (w i)) as [err|] eqn:Ea.
  - rewrite stops_budget in H. unfold clock at 1 in H.
    destruct (budget <? elapsed (w i)) eqn:Hb.
    + injection H as <- <-. exists O. replace (i + 0)%nat with i by lia.
      split; [lia|]. split; [intros; lia|]. split; [congruence|].
      right. apply Z.ltb_lt, Hb.
    + destruct (IH (S i) s1 r s' Hc1 H) as (n & Hn & Hfail & Hr & Hend).
      exists (S n). replace (i + S n)%nat with (S i + n)%nat by lia.
      split; [lia|]. split; [|split; assumption].
      intros j Hj. destruct (Nat.eq_dec j i) as [->|Hne].
      * split; [congruence|]. apply Z.ltb_ge, Hb.
      * apply Hfail. lia.
  - injection H as <- <-. exists O. replace (i + 0)%nat with i by lia.
    split; [lia|]. split; [intros; lia|]. split; [congruence|]. left. reflexivity.
Qed.

(** With a configuration set, [Retry] neither panics nor exits. *)
Lemma Retry_no_panic fuel :
  forall i s o,
    c (reg s) = Some cfg ->
    backoff.Retry fuel operation bc clock i s = Some o ->
    exists r s', o = Returns r s'.
Proof.
  induction fuel as [|fuel IH]; intros i s o Hc H; [discriminate|].
  destruct (bootstrap_run d ctx (w i) s cfg Hc) as (s1 & E & Hc1 & _).
  cbn [backoff.Retry] in H. unfold operation at 1 in H. rewrite E in H.
  destruct (attempt_error d cfg (w i)) as [err|].
  - destruct (backoff.stops bc (clock i)).
    + injection H as <-. eauto.
    + apply (IH (S i) s1 o Hc1 H).
  - injection H as <-. eauto.
Qed.

End Retry.

Lemma bootstrap_nil_sets_persister d ctx a s s' :
  bootstrap d ctx a s = Returns None s' -> persister (reg s') <> None.
Proof.
  destruct (c (reg s)) as [cfg|] eqn:Hc.
  - destruct (bootstrap_run d ctx a s cfg Hc) as (s1 & E & _ & _ & _ & Hp & _).
    rewrite E. intros H. injection H as Ha <-. rewrite Hp, Ha. discriminate.
  - unfold bootstrap, Configuration, bind, read. cbn. rewrite Hc. discriminate.
Qed.

Lemma Retry_nil_sets_persister d ctx w b clock fuel :
  forall i s s',
    backoff.Retry fuel (fun i => bootstrap d ctx (w i)) b clock i s = Some (Returns None s') ->
    persister (reg s') <> None.
Proof.
  induction fuel as [|fuel IH]; intros i s s' H; [discriminate|].
  cbn [backoff.Retry] in H.
  destruct (bootstrap d ctx (w i) s) as [[err|] s1|v s1|s1] eqn:E; try discriminate.
  - destruct (backoff.stops b (clock i)); [discriminate|]. apply (IH _ _ _ H).
  - injection H as <-. apply (bootstrap_nil_sets_persister _ _ _ _ _ E).
Qed.

Lemma Init_nil_sets_persister d ctx w fuel s s' :
  Init d ctx w fuel s = Some (Returns None s') -> persister (reg s') <> None.
Proof.
  unfold Init. destruct (persister (reg s)); [discriminate|].
  destruct (backoff.Retry _ _ _ _ _ _) as [[[err|] s1|v s1|s1]|] eqn:E; try discriminate.
  cbn. intros H. injection H as <-.
  apply (Retry_nil_sets_persister _ _ _ _ _ _ _ _ _ E).
Qed.

Lemma Init_when_set d ctx w fuel s p :
  persister (reg s) = Some p -> Init d ctx w fuel s = Some (Panics Init_panic s).
Proof. unfold Init. intros ->. reflexivity. Qed.

(** C3: a call of [Init] that returned nil has set the persister; from then
    on, in every state in which the persister is still set, a call of [Init]
    panics: it neither returns (an error or nil) nor touches the registry,
    whatever the world would answer. *)
Theorem Init_twice_panics (d : Deps) (ctx : Context) (w : nat -> Attempt) (fuel : nat)
    (s s' : Proc) :
  Init d ctx w fuel s = Some (Returns None s') ->
  persister (reg s') <> None /\
  forall t, persister (reg t) = persister (reg s') ->
    forall ctx' w' fuel', Init d ctx' w' fuel' t = Some (Panics Init_panic t).
Proof.
  intros H. pose proof (Init_nil_sets_persister _ _ _ _ _ _ H) as Hp.
  split; [exact Hp|]. intros t Ht ctx' w' fuel'.
  destruct (persister (reg s')) as [p|] eqn:E; [|congruence].
  apply (Init_when_set _ _ _ _ _ p Ht).
Qed.

Lemma Init_twice_panics_witness :
  Init kratos.deps O kratos.all_fine 1 (reconfigure postgres_configured boot)
    = Some (Returns None started) /\
  Init kratos.deps O kratos.unreachable 7 started = Some (Panics Init_panic started).
Proof.
  split; [reflexivity|].
  apply (Init_twice_panics kratos.deps O kratos.all_fine 1
           (reconfigure postgres_configured boot) started eq_refl).
  reflexivity.
Defined.

Section Init.

Variables (d : Deps) (ctx : Context) (w : nat -> Attempt) (cfg : config.Provider).
Variable s : Proc.
Hypothesis configured : c (reg s) = Some cfg.
Hypothesis fresh : persister (reg s) = None.

Lemma Init_ends n fuel :
  last_run d cfg w n -> (n < fuel)%nat ->
  exists s',
    Init d ctx w fuel s
      = Some (Returns (errors.WithStack (attempt_error d cfg (w n))) s') /\
    trace s' = (trace s ++ events_upto d ctx cfg w n)%list /\
    match attempt_error d cfg (w n) with
    | None => exists addr,
        persister (reg s') = Some {| persistence.addr := addr;
                                     persistence.conn := attempt_conn d ctx cfg |} /\
        (heap s <= addr < heap s')%nat
    | Some _ => persister (reg s') = None
    end.
Proof.
  intros [Hret Hend] Hfuel.
  destruct (Retry_ends d ctx w cfg n O s fuel configured) as (s' & E & _ & Ht & _ & Hp).
  - intros j Hj. apply Hret. lia.
  - exact Hend.
  - exact Hfuel.
  - exists s'. unfold Init. rewrite fresh. cbn [Nat.add] in E. rewrite E.
    split; [reflexivity|]. split; [exact Ht|].
    cbn [Nat.add] in Hp. destruct (attempt_error d cfg (w n)); [congruence|exact Hp].
Qed.

Lemma Init_last_run fuel o :
  Init d ctx w fuel s = Some o -> exists n, (n < fuel)%nat /\ last_run d cfg w n.
Proof.
  unfold Init. rewrite fresh. intros H.
  destruct (backoff.Retry _ _ _ _ _ _) as [o'|] eqn:E; [|discriminate].
  destruct (Retry_no_panic d ctx w cfg fuel O s o' configured E) as (r & s' & ->).
  destruct (Retry_returned d ctx w cfg fuel O s r s' configured E) as (n & Hn & Hf & Hr & He).
  exists n. split; [exact Hn|]. split.
  - intros j Hj. apply Hf. lia.
  - cbn [Nat.add] in *. destruct He as [->|He]; [left; congruence | right; exact He].
Qed.

End Init.



(** ** Migration *)

Lemma migrate_in_attempt d ctx cfg a :
  In EvMigrateUp (attempt_events d ctx cfg a) <->
  dbal_InMemoryDSN d = config.DSN cfg /\
  pop_NewConnection a = None /\ Open a = None /\ sql_NewPersister a = None /\
  p_Ping a = None.
Proof.
  unfold attempt_events.
  destruct (pop_NewConnection a), (Open a), (sql_NewPersister a), (p_Ping a);
    cbn;
    try (split; [intros H; repeat (destruct H as [H|H]; try discriminate); contradiction
                | intros (?&?&?&?&?); discriminate]).
  destruct (dbal_InMemoryDSN d =? config.DSN cfg)%string eqn:E; cbn.
  - apply String.eqb_eq in E. split; [auto | intros _; do 6 right; left; reflexivity].
  - apply String.eqb_neq in E. split.
    + intros H; repeat (destruct H as [H|H]; try discriminate); contradiction.
    + intros (?&_). contradiction.
Qed.










(** ** The persister field *)

Lemma kp_ret {A} (x : A) : keeps_persister (ret x).
Proof. intros s. reflexivity. Qed.

Lemma kp_panic {A} v : keeps_persister (@panic A v).
Proof. intros s. reflexivity. Qed.

Lemma kp_exit {A} : keeps_persister (@os_Exit A).
Proof. intros s. reflexivity. Qed.

Lemma kp_read {A} (f : RegistryDefault -> A) : keeps_persister (read f).
Proof. intros s. reflexivity. Qed.

Lemma kp_emit e : keeps_persister (emit e).
Proof. intros s. reflexivity. Qed.

Lemma kp_new : keeps_persister new.
Proof. intros s. reflexivity. Qed.

Lemma kp_write f :
  (forall m, persister (f m) = persister m) -> keeps_persister (write f).
Proof. intros H s. cbn. apply H. Qed.

Lemma kp_bind {A B} (m : M A) (k : A -> M B) :
  keeps_persister m -> (forall x, keeps_persister (k x)) -> keeps_persister (bind m k).
Proof.
  intros Hm Hk s. unfold bind. specialize (Hm s).
  destruct (m s) as [x s1|v s1|s1]; cbn in *; try exact Hm.
  rewrite (Hk x s1). exact Hm.
Qed.

Lemma kp_range {A} (xs : list A) (body : A -> M unit) :
  (forall x, keeps_persister (body x)) -> keeps_persister (range xs body).
Proof.
  intros H. induction xs as [|x xs IH]; cbn [range].
  - apply kp_ret.
  - apply kp_bind; [apply H | intros _; exact IH].
Qed.

Ltac kp :=
  repeat (intros;
    first
      [ apply kp_ret | apply kp_panic | apply kp_exit | apply kp_read
      | apply kp_emit | apply kp_new
      | apply kp_write; intros; reflexivity
      | apply kp_bind
      | apply kp_range
      | match goal with
        | |- keeps_persister (match ?x with _ => _ end) => destruct x
        end ]).

Lemma kp_lazily f ctor : keeps_persister ctor -> keeps_persister (lazily f ctor).
Proof. intros H. unfold lazily. kp. exact H. Qed.

Lemma kp_getter d g : keeps_persister (getter d g).
Proof.
  destruct g; unfold getter, as_; (apply kp_bind; [|intros; apply kp_ret]);
    try (apply kp_lazily); kp.
Qed.

Lemma bootstrap_unconfigured d ctx a s :
  c (reg s) = None -> bootstrap d ctx a s = Panics "configuration not set" s.
Proof. intros H. unfold bootstrap, Configuration, bind, read. cbn. rewrite H. reflexivity. Qed.

(** Only a call of [Init] that returns nil changes the persister: it sets
    it, from nil, to a persister it has allocated. *)
Lemma exec_persister d k s o :
  exec d k s = Some o ->
  (Init_returned_nil (k, o) /\ persister (reg s) = None /\
   exists p, persister (reg (final o)) = Some p /\
             (heap s <= persistence.addr p < heap (final o))%nat) \/
  (~ Init_returned_nil (k, o) /\ persister (reg (final o)) = persister (reg s)).
Proof.
  destruct k as [g|v|lg|cfg|h| |ctx|db|ctx w fuel]; cbn [exec];
    try (intros H; injection H as <-; right; split;
         [ cbn; tauto
         | first [ apply kp_getter | unfold as_; apply kp_bind; [|intros; apply kp_ret] ] ]).
  - destruct v; cbn; kp.
  - unfold WithLogger. kp.
  - unfold WithConfig. kp.
  - unfold WithCSRFHandler. kp.
  - unfold CSRFHandler. kp.
  - unfold Configuration. kp.
  - unfold Ping. kp.
  - destruct (persister (reg s)) as [p|] eqn:Hp.
    + rewrite (Init_when_set d ctx w fuel s p Hp). cbn. intros H. injection H as <-.
      right. split; [cbn; tauto | exact Hp].
    + destruct (c (reg s)) as [cfg|] eqn:Hc.
      * intros H. destruct (Init d ctx w fuel s) as [o'|] eqn:E; [|discriminate].
        destruct (Init_last_run d ctx w cfg s Hc Hp fuel o' E) as (n & Hn & Hlast).
        destruct (Init_ends d ctx w cfg s Hc Hp n fuel Hlast Hn) as (s' & E' & _ & Hper).
        rewrite E in E'. injection E' as ->. cbn in H. injection H as <-.
        destruct (attempt_error d cfg (w n)) as [err|]; cbn.
        -- right. split; [tauto | congruence].
        -- left. split; [exact I|]. split; [reflexivity|].
           destruct Hper as (addr & Hper & Hrange). eexists. split; [exact Hper | exact Hrange].
      * unfold Init. rewrite Hp. destruct fuel as [|fuel]; [discriminate|].
        cbn [backoff.Retry]. rewrite (bootstrap_unconfigured d ctx (w O) s Hc).
        cbn. intros H. injection H as <-. right. split; [cbn; tauto | exact Hp].
Qed.

Lemma run_app d h1 : forall s h2 s',
  run d s (h1 ++ h2) s' -> exists s1, run d s h1 s1 /\ run d s1 h2 s'.
Proof.
  induction h1 as [|[k o] h1 IH]; intros s h2 s' H; cbn in H.
  - exists s. split; [constructor | exact H].
  - inversion H as [|? ? ? ? ? He Hr]; subst.
    destruct (IH _ _ _ Hr) as (s1 & H1 & H2).
    exists s1. split; [econstructor; eassumption | exact H2].
Qed.

Lemma run_persister_set d s h s' p :
  run d s h s' -> persister (reg s) = Some p ->
  persister (reg s') = Some p /\ forall ko, In ko h -> ~ Init_returned_nil ko.
Proof.
  induction 1 as [s|s k o h s' He Hr IH]; intros Hp.
  - split; [exact Hp | intros ko []].
  - destruct (exec_persister d k s o He) as [(_ & Hnone & _)|(Hnot & Hsame)]; [congruence|].
    destruct IH as [IH1 IH2]; [congruence|].
    split; [exact IH1|]. intros ko [<-|Hin]; [exact Hnot | apply IH2, Hin].
Qed.

Lemma run_persister_nil d s h s' :
  run d s h s' -> persister (reg s) = None ->
  (forall ko, In ko h -> ~ Init_returned_nil ko) <-> persister (reg s') = None.
Proof.
  induction 1 as [s|s k o h s' He Hr IH]; intros Hp.
  - split; [intros _; exact Hp | intros _ ko []].
  - destruct (exec_persister d k s o He) as [(Hnil & _ & p & Hset & _)|(Hnot & Hsame)].
    + destruct (run_persister_set d _ _ _ p Hr Hset) as [Hs' _]. split.
      * intros Hall. elim (Hall (k, o)); [left; reflexivity | exact Hnil].
      * congruence.
    + rewrite <- IH by congruence. split.
      * intros Hall ko Hin. apply Hall. right. exact Hin.
      * intros Hall ko [<-|Hin]; [exact Hnot | apply Hall, Hin].
Qed.

Lemma view_returns v s : view v s = Returns (persister (reg s)) s.
Proof. destruct v; reflexivity. Qed.

(** C10: as long as no call of [Init] has returned nil, the persister field
    is nil, so that [Persister()] and the per-flow persister getters return
    nil and [Ping()] panics on the nil dereference; once a call of [Init]
    has returned nil it is the only such call, and from then on all these
    getters return the persister that call has constructed, and [Ping]
    returns what that persister's [Ping] returns. *)
Theorem persister_lifecycle (d : Deps) (h : list (K.Call * Outcome Value)) (s : Proc) :
  run d boot h s ->
  ((forall ko, In ko h -> ~ Init_returned_nil ko) ->
     persister (reg s) = None /\
     (forall v, view v s = Returns None s) /\
     (forall db, Ping db s = Panics nil_dereference s)) /\
  (forall h1 k o h2, h = (h1 ++ (k, o) :: h2)%list -> Init_returned_nil (k, o) ->
     exists s0 p,
       run d boot h1 s0 /\
       exec d k s0 = Some o /\
       persister (reg s0) = None /\
       persister (reg (final o)) = Some p /\
       (heap s0 <= persistence.addr p < heap (final o))%nat /\
       persister (reg s) = Some p /\
       (forall v, view v s = Returns (Some p) s) /\
       (forall db, exists s', Ping db s = Returns (db p) s' /\ reg s' = reg s) /\
       (forall ko, In ko h1 \/ In ko h2 -> ~ Init_returned_nil ko)).
Proof.
  intros Hrun. split.
  - intros Hall.
    assert (Hp : persister (reg s) = None).
    { apply (run_persister_nil d boot h s Hrun eq_refl), Hall. }
    split; [exact Hp|]. split.
    + intros v. rewrite view_returns, Hp. reflexivity.
    + intros db. unfold Ping, bind, read. rewrite Hp. reflexivity.
  - intros h1 k o h2 -> Hnil.
    destruct (run_app d h1 boot _ s Hrun) as (s0 & H1 & H2).
    inversion H2 as [|? ? ? ? ? He Hr]; subst.
    destruct (exec_persister d k s0 o He) as [(_ & Hnone & p & Hset & Hrange)|(Hnot & _)];
      [|contradiction].
    destruct (run_persister_set d _ _ _ p Hr Hset) as [Hs Hafter].
    exists s0, p. repeat (split; [assumption|]).
    split; [intros v; rewrite view_returns, Hs; reflexivity|].
    split.
    + intros db. unfold Ping, bind, read, emit, ret. rewrite Hs. eexists. split; reflexivity.
    + intros ko [Hin|Hin]; [|apply Hafter, Hin].
      apply (run_persister_nil d boot h1 s0 H1 eq_refl); assumption.
Qed.

Lemma persister_lifecycle_witness :
  view V.SessionPersister boot = Returns None boot /\
  exists p, view V.SessionPersister started = Returns (Some p) started.
Proof.
  split.
  - destruct (persister_lifecycle kratos.deps [] boot (run_nil _ _)) as [Hnil _].
    destruct Hnil as (_ & Hview & _); [intros ko []|]. apply Hview.
  - assert (Hrun : run kratos.deps boot
                     [(K.WithConfig (Some postgres_configured),
                       Returns VUnit (reconfigure postgres_configured boot));
                      (K.Init O kratos.all_fine 1, Returns (VError None) started)]
                     started).
    { eapply run_cons; [reflexivity|]. eapply run_cons; [reflexivity|]. apply run_nil. }
    destruct (persister_lifecycle kratos.deps _ started Hrun) as [_ Hset].
    destruct (Hset [(K.WithConfig (Some postgres_configured),
                     Returns VUnit (reconfigure postgres_configured boot))]
                (K.Init O kratos.all_fine 1) (Returns (VError None) started) []
                eq_refl I)
      as (s0 & p & _ & _ & _ & _ & _ & _ & Hview & _).
    exists p. apply Hview.
Defined.

(** ** Memoization *)

Lemma lazily_memo f ctor s p s' :
  lazily f ctor s = Returns p s' -> singleton (reg s') f = Some p.
Proof.
  unfold lazily, bind, read. cbn.
  destruct (singleton (reg s) f) as [q|] eqn:E; cbn.
  - intros H. injection H as <- <-. exact E.
  - destruct (ctor s) as [q s1|v s1|s1]; try discriminate. cbn.
    intros H. injection H as <- <-. cbn.
    destruct (F.eq_dec f f); [reflexivity | contradiction].
Qed.

Lemma lazily_hit f ctor s p :
  singleton (reg s) f = Some p -> lazily f ctor s = Returns p s.
Proof. unfold lazily, bind, read. cbn. intros ->. reflexivity. Qed.

(** The shape of the strategy-set getters: build when the field is empty. *)
Lemma list_getter_memo (field : RegistryDefault -> list Strategy) (build : M unit) s sts s' :
  (cur <- read field ;;
   (if (length cur =? 0)%nat then build else ret tt) ;;
   read field) s = Returns sts s' ->
  field (reg s') = sts.
Proof.
  intros H. apply bind_Returns in H. destruct H as (cur & s1 & _ & H).
  apply bind_Returns in H. destruct H as (u & s2 & _ & H).
  unfold read in H. injection H as <- <-. reflexivity.
Qed.

Lemma list_getter_hit (field : RegistryDefault -> list Strategy) (build : M unit) s :
  field (reg s) <> [] ->
  (cur <- read field ;;
   (if (length cur =? 0)%nat then build else ret tt) ;;
   read field) s = Returns (field (reg s)) s.
Proof.
  intros H. unfold bind, read. destruct (field (reg s)) eqn:E; [congruence|].
  cbn. rewrite E. reflexivity.
Qed.

Lemma CookieManager_memo d s cs s' :
  CookieManager d s = Returns cs s' -> sessionsStore (reg s') = Some cs.
Proof.
  unfold CookieManager, bind, read, m_c, sessions_NewCookieStore, new, write, ret. cbn.
  destruct (sessionsStore (reg s)) as [cs0|] eqn:E; cbn.
  - intros H. injection H as <- <-. exact E.
  - destruct (c (reg s)); cbn; [|discriminate].
    intros H. injection H as <- <-. reflexivity.
Qed.

Lemma CookieManager_hit d s cs :
  sessionsStore (reg s) = Some cs -> CookieManager d s = Returns cs s.
Proof. unfold CookieManager, bind, read. cbn. intros ->. reflexivity. Qed.

Lemma as_Returns {A} (inj : A -> Value) (m : M A) s x s' :
  as_ inj m s = Returns x s' -> exists y, m s = Returns y s' /\ x = inj y.
Proof.
  unfold as_. intros H. apply bind_Returns in H. destruct H as (y & s1 & E & H).
  unfold ret in H. injection H as <- <-. exists y. auto.
Qed.

Lemma as_eq {A} (inj : A -> Value) (m : M A) s y s' :
  m s = Returns y s' -> as_ inj m s = Returns (inj y) s'.
Proof. unfold as_, bind. intros ->. reflexivity. Qed.

(** In a state where the getter's field holds [x], the getter returns [x]
    and changes nothing. *)
Lemma getter_memoized d g s x s' :
  getter d g s = Returns x s' ->
  (forall ctx, g <> G.ContinuityCookieManager ctx) ->
  x <> VStrategies [] ->
  forall t, (t = s' \/ exists cfg', t = reconfigure cfg' s') ->
  getter d g t = Returns x t.
Proof.
  intros H Hg Hx t Ht.
  assert (Hsame : singleton (reg t) = singleton (reg s') /\
                  sessionsStore (reg t) = sessionsStore (reg s') /\
                  selfserviceStrategies (reg t) = selfserviceStrategies (reg s') /\
                  registrationStrategies (reg t) = registrationStrategies (reg s') /\
                  loginStrategies (reg t) = loginStrategies (reg s') /\
                  verificationStrategies (reg t) = verificationStrategies (reg s') /\
                  activeCredentialsCounterStrategies (reg t)
                  = activeCredentialsCounterStrategies (reg s')).
  { destruct Ht as [->|[cfg' ->]]; repeat split. }
  destruct Hsame as (Hsing & Hstore & Hall & Hreg & Hlog & Hver & Hacc).
  destruct g; cbn [getter] in *; apply as_Returns in H; destruct H as (y & H & ->);
    try (apply as_eq; apply lazily_hit; rewrite Hsing; apply (lazily_memo _ _ _ _ _ H)).
  - apply as_eq, CookieManager_hit. rewrite Hstore. apply (CookieManager_memo _ _ _ _ H).
  - elim (Hg ctx). reflexivity.
  - apply as_eq. apply list_getter_memo in H. subst y.
    rewrite <- Hall. apply list_getter_hit. rewrite Hall. congruence.
  - apply as_eq. apply list_getter_memo in H. subst y.
    rewrite <- Hreg. apply list_getter_hit. rewrite Hreg. congruence.
  - apply as_eq. apply list_getter_memo in H. subst y.
    rewrite <- Hlog. apply list_getter_hit. rewrite Hlog. congruence.
  - apply as_eq. apply list_getter_memo in H. subst y.
    rewrite <- Hver. apply list_getter_hit. rewrite Hver. congruence.
  - apply as_eq. apply list_getter_memo in H. subst y.
    rewrite <- Hacc. apply list_getter_hit. rewrite Hacc. congruence.
Qed.

Lemma ContinuityCookieManager_run d ctx s cfg :
  c (reg s) = Some cfg ->
  exists cs,
    ContinuityCookieManager d ctx s
      = Returns cs {| reg := reg s; heap := S (heap s); trace := trace s |} /\
    sessions.store_addr cs = heap s /\
    sessions.Codecs cs = config.SecretsSession (corp_ContextualizeConfig d ctx cfg) /\
    sessions.Secure (sessions.Options_ cs)
    = negb (config.IsInsecureDevMode (corp_ContextualizeConfig d ctx cfg)).
Proof.
  intros Hc.
  unfold ContinuityCookieManager, Configuration, bind, read, sessions_NewCookieStore, new, ret.
  cbn. rewrite Hc. cbn. rewrite ?Hc. cbn. eexists. repeat split.
Qed.

Lemma ContinuityCookieManager_configured d ctx s cs s1 :
  ContinuityCookieManager d ctx s = Returns cs s1 -> exists cfg, c (reg s) = Some cfg.
Proof.
  unfold ContinuityCookieManager, Configuration, bind, read. cbn.
  destruct (c (reg s)) as [cfg|]; [eauto | discriminate].
Qed.

(** C9, as the code has it: a getter that constructs what it returns keeps
    it: once it has returned a component (for a strategy-set getter: a set
    that is not empty), every later call returns that same component and
    changes nothing, whatever the configuration has become. There are two
    kinds of exception: [ContinuityCookieManager] memoizes nothing and
    returns a new store on every call, with the secrets and the dev mode of
    the configuration of that call; and a strategy-set getter that returned
    the empty set has memoized nothing either (see the lemma after this
    theorem). *)
Theorem getters_memoize (d : Deps) :
  (forall g s x s',
     getter d g s = Returns x s' ->
     (forall ctx, g <> G.ContinuityCookieManager ctx) ->
     x <> VStrategies [] ->
     getter d g s' = Returns x s' /\
     forall cfg', getter d g (reconfigure cfg' s') = Returns x (reconfigure cfg' s')) /\
  (forall ctx s cs s1,
     ContinuityCookieManager d ctx s = Returns cs s1 ->
     reg s1 = reg s /\
     forall ctx' cfg', exists cs' s2,
       ContinuityCookieManager d ctx' (reconfigure cfg' s1) = Returns cs' s2 /\
       sessions.store_addr cs' <> sessions.store_addr cs /\
       sessions.Codecs cs' = config.SecretsSession (corp_ContextualizeConfig d ctx' cfg') /\
       sessions.Secure (sessions.Options_ cs')
       = negb (config.IsInsecureDevMode (corp_ContextualizeConfig d ctx' cfg'))).
Proof.
  split.
  - intros g s x s' H Hg Hx. split.
    + apply (getter_memoized d g s x s' H Hg Hx). left. reflexivity.
    + intros cfg'. apply (getter_memoized d g s x s' H Hg Hx). right. exists cfg'. reflexivity.
  - intros ctx s cs s1 H.
    destruct (ContinuityCookieManager_configured d ctx s cs s1 H) as (cfg & Hc).
    destruct (ContinuityCookieManager_run d ctx s cfg Hc) as (cs0 & E & Haddr & _).
    rewrite E in H. injection H as <- <-. split; [reflexivity|].
    intros ctx' cfg'.
    destruct (ContinuityCookieManager_run d ctx'
                (reconfigure cfg' {| reg := reg s; heap := S (heap s); trace := trace s |})
                cfg' eq_refl) as (cs' & E' & Haddr' & Hcodecs & Hsec).
    exists cs'. eexists. split; [exact E'|]. split; [|split; assumption].
    rewrite Haddr, Haddr'. cbn. lia.
Qed.

Lemma getters_memoize_witness :
  getter kratos.deps G.Courier (reconfigure all_enabled boot)
    = Returns (VPtr O) (final (getter kratos.deps G.Courier (reconfigure all_enabled boot))) /\
  getter kratos.deps G.Courier
    (reconfigure none_enabled
       (final (getter kratos.deps G.Courier (reconfigure all_enabled boot))))
    = Returns (VPtr O)
        (reconfigure none_enabled
           (final (getter kratos.deps G.Courier (reconfigure all_enabled boot)))).
Proof.
  split; [reflexivity|].
  apply (proj1 (getters_memoize kratos.deps) G.Courier (reconfigure all_enabled boot) (VPtr O)
           (final (getter kratos.deps G.Courier (reconfigure all_enabled boot))) eq_refl).
  - discriminate.
  - discriminate.
Defined.

(** C9 as stated fails for the strategy-set getters: with no mechanism
    enabled [RegistrationStrategies] returns the empty set and memoizes
    nothing, and once the configuration enables the mechanisms the next call
    returns another set. [ContinuityCookieManager] is not the only getter
    whose later calls follow the configuration. *)
Lemma empty_strategy_set_not_memoized :
  exists s1 second s2,
    getter kratos.deps G.RegistrationStrategies (reconfigure none_enabled boot)
      = Returns (VStrategies []) s1 /\
    getter kratos.deps G.RegistrationStrategies (reconfigure all_enabled s1)
      = Returns (VStrategies second) s2 /\
    second <> [].
Proof.
  eexists _, _, _. split; [reflexivity|]. split; [reflexivity|]. discriminate.
Qed.

(** * Further properties of the file *)

(** ** DSN schemes *)

Lemma HasPrefix_shorter (s p q : string) :
  strings.HasPrefix s (p ++ q) = true -> strings.HasPrefix s p = true.
Proof.
  rewrite !HasPrefix_spec. intros [rest ->]. exists (q ++ rest)%string.
  induction p as [|ch p IH]; cbn; [reflexivity | now rewrite IH].
Qed.

Lemma HasPrefix_longer (s p suffix : string) :
  strings.HasPrefix s p = true -> strings.HasPrefix (s ++ suffix) p = true.
Proof.
  rewrite !HasPrefix_spec. intros [rest ->]. exists (rest ++ suffix)%string.
  induction p as [|ch p IH]; cbn; [reflexivity | now rewrite IH].
Qed.

(** X1: three of the nine tests of [CanHandle] never decide: a DSN that
    begins with sqlite3, postgresql or cockroachdb already begins with
    sqlite, postgres or cockroach. *)
Theorem CanHandle_redundant_tests (dsn : string) :
  CanHandle dsn = CanHandle_short dsn.
Proof.
  unfold CanHandle, CanHandle_short.
  pose proof (HasPrefix_shorter dsn "sqlite" "3") as H1.
  pose proof (HasPrefix_shorter dsn "postgres" "ql") as H2.
  pose proof (HasPrefix_shorter dsn "cockroach" "db") as H3.
  cbn [append] in H1, H2, H3.
  destruct (dsn =? "memory")%string, (strings.HasPrefix dsn "mysql"),
    (strings.HasPrefix dsn "sqlite"), (strings.HasPrefix dsn "sqlite3"),
    (strings.HasPrefix dsn "postgres"), (strings.HasPrefix dsn "postgresql"),
    (strings.HasPrefix dsn "cockroach"), (strings.HasPrefix dsn "cockroachdb"),
    (strings.HasPrefix dsn "crdb"); cbn; try reflexivity;
    first [ discriminate (H1 eq_refl) | discriminate (H2 eq_refl) | discriminate (H3 eq_refl) ].
Qed.

(** X2: the engine prefixes are matched as prefixes, the word memory as a
    whole: what follows a handled engine DSN does not matter, but memory
    followed by anything is not handled. *)
Theorem CanHandle_suffix (dsn suffix : string) :
  (CanHandle dsn = true -> dsn <> "memory" -> CanHandle (dsn ++ suffix) = true) /\
  (suffix <> "" -> CanHandle ("memory" ++ suffix) = false).
Proof.
  split.
  - unfold CanHandle. intros H Hne.
    apply String.eqb_neq in Hne. rewrite Hne in H. cbn [orb] in H.
    repeat match type of H with
           | (_ || _)%bool = true => apply orb_true_iff in H; destruct H as [H|H]
           end;
      apply (HasPrefix_longer _ _ suffix) in H; rewrite H;
      rewrite ?orb_true_r; reflexivity.
  - intros Hne. destruct suffix as [|ch rest]; [congruence|]. reflexivity.
Qed.

Lemma CanHandle_suffix_witness :
  CanHandle ("postgres://db" ++ "/kratos?sslmode=disable") = true /\
  CanHandle ("memory" ++ "://") = false.
Proof.
  split.
  - apply (proj1 (CanHandle_suffix "postgres://db" "/kratos?sslmode=disable"));
      [reflexivity | discriminate].
  - apply (proj2 (CanHandle_suffix "postgres://db" "://")). discriminate.
Defined.

(** ** Strategy sets without a configuration, and the objects they share *)

Lemma ActiveCredentialsCounterStrategies_build d ctx s all s1 :
  activeCredentialsCounterStrategies (reg s) = [] ->
  selfServiceStrategies d s = Returns all s1 ->
  let built := filter implements_counter all in
  ActiveCredentialsCounterStrategies d ctx s
  = Returns built (with_reg (set_activeCredentialsCounterStrategies built) s1).
Proof.
  intros He Hall built.
  assert (Ha1 : activeCredentialsCounterStrategies (reg s1)
                = activeCredentialsCounterStrategies (reg s)).
  { revert Hall. unfold selfServiceStrategies, NewStrategy, bind, read, new, write, ret.
    destruct (length (selfserviceStrategies (reg s)) =? 0)%nat; cbn;
      intros H; injection H as <- <-; reflexivity. }
  unfold ActiveCredentialsCounterStrategies. unfold bind at 1, read at 1.
  rewrite He. cbn [length Nat.eqb].
  unfold bind at 1. unfold bind at 1. rewrite Hall.
  pose proof (range_ungated activeCredentialsCounterStrategies
                set_activeCredentialsCounterStrategies implements_counter all
                activeCredentialsCounterStrategies_laws s1) as R.
  unfold implements_counter in R. rewrite R.
  unfold read, with_reg. cbn. rewrite Ha1, He. reflexivity.
Qed.

(** X3: the verification set and the set of credential counters are built
    from the type assertion alone. The getters read no configuration: they
    return also when no configuration is set, they leave the configuration
    field alone, and the counters do not depend on the context passed. *)
Theorem capability_only_sets (d : Deps) (ctx : Context) (s : Proc) :
  (verificationStrategies (reg s) = [] ->
     exists s', VerificationStrategies d s
       = Returns (filter implements_verification (registered d s)) s' /\
       c (reg s') = c (reg s)) /\
  (activeCredentialsCounterStrategies (reg s) = [] ->
     exists s', ActiveCredentialsCounterStrategies d ctx s
       = Returns (filter implements_counter (registered d s)) s' /\
       c (reg s') = c (reg s)).
Proof.
  destruct (selfServiceStrategies_returns d s) as (all & s1 & E & _ & _ & Hc & _).
  rewrite (registered_eq d s all s1 E). split; intros He.
  - eexists. split; [apply (VerificationStrategies_build d s all s1 He E)|]. exact Hc.
  - eexists. split; [apply (ActiveCredentialsCounterStrategies_build d ctx s all s1 He E)|].
    exact Hc.
Qed.

Lemma capability_only_sets_witness :
  c (reg boot) = None /\
  exists s', ActiveCredentialsCounterStrategies kratos.deps O boot
    = Returns (filter implements_counter (registered kratos.deps boot)) s' /\
    c (reg s') = None.
Proof.
  split; [reflexivity|].
  apply (proj2 (capability_only_sets kratos.deps O boot)). reflexivity.
Defined.

(** Without a configuration the gated loop panics at the first strategy
    that passes the type assertion, before it appends anything. *)
Lemma range_gated_unconfigured get set (impl : Strategy -> bool) (all : list Strategy) :
  forall s, c (reg s) = None ->
    range all (fun st =>
      if impl st then
        en <- strategy_enabled st ;;
        if en then write (fun m => set (get m ++ [st])%list m) else ret tt
      else ret tt) s
    = if existsb impl all then Panics nil_dereference s else Returns tt s.
Proof.
  induction all as [|st rest IH]; intros s Hc; cbn [range existsb].
  - reflexivity.
  - unfold bind at 1. destruct (impl st); cbn [orb].
    + unfold bind at 1, strategy_enabled, m_c, bind, read. rewrite Hc. reflexivity.
    + unfold ret. apply IH, Hc.
Qed.

(** X4: with no configuration set, [RegistrationStrategies] and
    [LoginStrategies] panic on the nil provider exactly when some
    registered strategy implements the capability, and return the empty set
    otherwise; at the panic the registered strategies are already memoized
    and the set is still empty. *)
Theorem gated_sets_unconfigured (d : Deps) (s : Proc) :
  c (reg s) = None ->
  (registrationStrategies (reg s) = [] ->
     exists s',
       RegistrationStrategies d s
       = (if existsb implements_registration (registered d s)
          then Panics nil_dereference s' else Returns [] s') /\
       registrationStrategies (reg s') = [] /\
       selfserviceStrategies (reg s') = registered d s) /\
  (loginStrategies (reg s) = [] ->
     exists s',
       LoginStrategies d s
       = (if existsb implements_login (registered d s)
          then Panics nil_dereference s' else Returns [] s') /\
       loginStrategies (reg s') = [] /\
       selfserviceStrategies (reg s') = registered d s).
Proof.
  intros Hc.
  destruct (selfServiceStrategies_returns d s) as (all & s1 & E & Hall & _ & Hc1 & Hr & Hl & _).
  rewrite (registered_eq d s all s1 E). split; intros He; exists s1.
  - split; [|split; [congruence | exact Hall]].
    unfold RegistrationStrategies. unfold bind at 1, read at 1. rewrite He. cbn [length Nat.eqb].
    unfold bind at 1. unfold bind at 1. rewrite E.
    pose proof (range_gated_unconfigured registrationStrategies set_registrationStrategies
                  implements_registration all s1 ltac:(congruence)) as R.
    unfold implements_registration in R |- *. rewrite R.
    destruct (existsb _ all); [reflexivity|]. unfold read. rewrite Hr, He. reflexivity.
  - split; [|split; [congruence | exact Hall]].
    unfold LoginStrategies. unfold bind at 1, read at 1. rewrite He. cbn [length Nat.eqb].
    unfold bind at 1. unfold bind at 1. rewrite E.
    pose proof (range_gated_unconfigured loginStrategies set_loginStrategies
                  implements_login all s1 ltac:(congruence)) as R.
    unfold implements_login in R |- *. rewrite R.
    destruct (existsb _ all); [reflexivity|]. unfold read. rewrite Hl, He. reflexivity.
Qed.

Lemma gated_sets_unconfigured_witness :
  exists s', RegistrationStrategies kratos.deps boot = Panics nil_dereference s' /\
             registrationStrategies (reg s') = [].
Proof.
  destruct (gated_sets_unconfigured kratos.deps boot eq_refl) as [H _].
  destruct (H eq_refl) as (s' & E & Hr & _).
  exists s'. split; [exact E | exact Hr].
Defined.




(** ** What a call leaves alone *)

Section Frame.

Context {B : Type} (proj : RegistryDefault -> B).

Lemma keeps_ret {A} (x : A) : keeps proj (ret x).
Proof. intros s. reflexivity. Qed.

Lemma keeps_panic {A} v : keeps proj (@panic A v).
Proof. intros s. reflexivity. Qed.

Lemma keeps_exit {A} : keeps proj (@os_Exit A).
Proof. intros s. reflexivity. Qed.

Lemma keeps_read {A} (f : RegistryDefault -> A) : keeps proj (read f).
Proof. intros s. reflexivity. Qed.

Lemma keeps_emit e : keeps proj (emit e).
Proof. intros s. reflexivity. Qed.

Lemma keeps_new : keeps proj new.
Proof. intros s. reflexivity. Qed.

Lemma keeps_write f : (forall m, proj (f m) = proj m) -> keeps proj (write f).
Proof. intros H s. cbn. apply H. Qed.

Lemma keeps_bind {A C} (m : M A) (k : A -> M C) :
  keeps proj m -> (forall x, keeps proj (k x)) -> keeps proj (bind m k).
Proof.
  intros Hm Hk s. unfold bind. specialize (Hm s).
  destruct (m s) as [x s1|v s1|s1]; cbn in *; try exact Hm.
  rewrite (Hk x s1). exact Hm.
Qed.

Lemma keeps_range {A} (xs : list A) (body : A -> M unit) :
  (forall x, keeps proj (body x)) -> keeps proj (range xs body).
Proof.
  intros H. induction xs as [|x xs IH]; cbn [range].
  - apply keeps_ret.
  - apply keeps_bind; [apply H | intros _; exact IH].
Qed.

Lemma keeps_Retry (operation : nat -> M (option error)) b clock :
  (forall i, keeps proj (operation i)) ->
  forall fuel i s o,
    backoff.Retry fuel operation b clock i s = Some o ->
    proj (reg (final o)) = proj (reg s).
Proof.
  intros Hop. induction fuel as [|fuel IH]; intros i s o H; [discriminate|].
  cbn [backoff.Retry] in H. specialize (Hop i s).
  destruct (operation i s) as [[err|] s1|v s1|s1]; cbn in Hop.
  - destruct (backoff.stops b (clock i)).
    + injection H as <-. exact Hop.
    + rewrite (IH _ _ _ H). exact Hop.
  - injection H as <-. exact Hop.
  - injection H as <-. exact Hop.
  - injection H as <-. exact Hop.
Qed.

End Frame.

(** [frame tac]: the method is built from steps that keep the part; [tac]
    shows that a written field is not the part. *)
Ltac frame tac :=
  repeat (intros;
    first
      [ apply keeps_ret | apply keeps_panic | apply keeps_exit | apply keeps_read
      | apply keeps_emit | apply keeps_new
      | apply keeps_write; intros; tac
      | apply keeps_bind
      | apply keeps_range
      | match goal with
        | |- keeps _ (match ?x with _ => _ end) => destruct x
        end ]).

Lemma keeps_getter {B} (proj : RegistryDefault -> B) d g :
  (forall f v m, f <> F.nosurf -> proj (set_singleton f v m) = proj m) ->
  (forall v m, proj (set_sessionsStore v m) = proj m) ->
  (forall v m, proj (set_selfserviceStrategies v m) = proj m) ->
  (forall v m, proj (set_registrationStrategies v m) = proj m) ->
  (forall v m, proj (set_loginStrategies v m) = proj m) ->
  (forall v m, proj (set_verificationStrategies v m) = proj m) ->
  (forall v m, proj (set_activeCredentialsCounterStrategies v m) = proj m) ->
  keeps proj (getter d g).
Proof.
  intros H1 H2 H3 H4 H5 H6 H7.
  destruct g; unfold getter, as_; (apply keeps_bind; [|intros; apply keeps_ret]);
    frame ltac:(first [ apply H1; discriminate | apply H2 | apply H3 | apply H4
                      | apply H5 | apply H6 | apply H7 ]).
Qed.

Lemma keeps_bootstrap {B} (proj : RegistryDefault -> B) d ctx a :
  (forall v m, proj (set_singleton F.l v m) = proj m) ->
  (forall v m, proj (set_persister v m) = proj m) ->
  keeps proj (bootstrap d ctx a).
Proof.
  intros H1 H2. unfold bootstrap.
  apply keeps_bind; [frame idtac|]. intros cfg.
  apply keeps_bind; [frame idtac|]. intros _.
  destruct (sqlcon_ParseConnectionOptions d (config.DSN cfg)) as [[[pool idle] life] dsn].
  unfold warn, Logger, lazily, m_c.
  frame ltac:(first [apply H1 | apply H2]).
Qed.

Lemma keeps_Init {B} (proj : RegistryDefault -> B) d ctx w fuel s o :
  (forall v m, proj (set_singleton F.l v m) = proj m) ->
  (forall v m, proj (set_persister v m) = proj m) ->
  Init d ctx w fuel s = Some o ->
  proj (reg (final o)) = proj (reg s).
Proof.
  intros H1 H2. unfold Init. destruct (persister (reg s)).
  - intros H. injection H as <-. reflexivity.
  - destruct (backoff.Retry _ _ _ _ _ _) as [o'|] eqn:E; [|discriminate].
    pose proof (keeps_Retry proj _ _ _
                  (fun i => keeps_bootstrap proj d ctx (w i) H1 H2) _ _ _ _ E) as K.
    destruct o' as [e s1|v s1|s1]; intros H; injection H as <-; exact K.
Qed.

(** A part of the registry that no getter and no [Init] writes is changed
    by a call only if the call is the setter of that part. *)
Lemma exec_keeps {B} (proj : RegistryDefault -> B) d k s o :
  (forall f v m, f <> F.nosurf -> proj (set_singleton f v m) = proj m) ->
  (forall v m, proj (set_sessionsStore v m) = proj m) ->
  (forall v m, proj (set_selfserviceStrategies v m) = proj m) ->
  (forall v m, proj (set_registrationStrategies v m) = proj m) ->
  (forall v m, proj (set_loginStrategies v m) = proj m) ->
  (forall v m, proj (set_verificationStrategies v m) = proj m) ->
  (forall v m, proj (set_activeCredentialsCounterStrategies v m) = proj m) ->
  (forall v m, proj (set_persister v m) = proj m) ->
  (forall cfg, k = K.WithConfig cfg -> forall m, proj (set_c cfg m) = proj m) ->
  (forall h, k = K.WithCSRFHandler h -> forall m, proj (set_singleton F.nosurf h m) = proj m) ->
  exec d k s = Some o ->
  proj (reg (final o)) = proj (reg s).
Proof.
  intros H1 H2 H3 H4 H5 H6 H7 H8 Hcfg Hcsrf.
  destruct k as [g|v|lg|cfg|h| |ctx|db|ctx w fuel]; cbn [exec];
    try (intros H; injection H as <-).
  - apply (keeps_getter proj d g H1 H2 H3 H4 H5 H6 H7).
  - revert s. change (keeps proj (as_ VPersister (view v))).
    destruct v; unfold as_; frame idtac.
  - revert s. change (keeps proj (as_ (fun _ => VUnit) (WithLogger lg))).
    unfold as_, WithLogger. frame ltac:(apply H1; discriminate).
  - revert s. change (keeps proj (as_ (fun _ => VUnit) (WithConfig cfg))).
    unfold as_, WithConfig. frame ltac:(apply (Hcfg cfg eq_refl)).
  - revert s. change (keeps proj (as_ (fun _ => VUnit) (WithCSRFHandler h))).
    unfold as_, WithCSRFHandler. frame ltac:(apply (Hcsrf h eq_refl)).
  - revert s. change (keeps proj (as_ VPtr CSRFHandler)). unfold as_, CSRFHandler. frame idtac.
  - revert s. change (keeps proj (as_ VConfig (Configuration d ctx))).
    unfold as_, Configuration. frame idtac.
  - revert s. change (keeps proj (as_ VError (Ping db))). unfold as_, Ping. frame idtac.
  - intros H. destruct (Init d ctx w fuel s) as [o'|] eqn:E; [|discriminate].
    pose proof (keeps_Init proj d ctx w fuel s o' ltac:(intros; apply H1; discriminate) H8 E) as K.
    destruct o'; cbn in H; injection H as <-; exact K.
Qed.

(** X6: only [WithConfig] writes the configuration field. After any
    sequence of calls (getters, [Init] with its retries, [Ping], the other
    setters) the configuration of the registry is the argument of the last
    [WithConfig], or what it was before if there was none. *)
Theorem config_written_by_WithConfig_only (d : Deps) (s : Proc)
    (h : list (K.Call * Outcome Value)) (s' : Proc) :
  run d s h s' -> c (reg s') = last_config (map fst h) (c (reg s)).
Proof.
  induction 1 as [s|s k o h s' He Hr IH]; [reflexivity|].
  cbn [map fst]. unfold last_config in *. cbn [fold_left]. rewrite IH. f_equal.
  destruct k as [g|v|lg|cfg|hd| |ctx|db|ctx w fuel];
    try (match type of He with
         | exec _ ?k _ = _ => apply (exec_keeps c d k s o)
         end; try reflexivity; try (intros; discriminate); exact He).
  cbn in He. injection He as <-. reflexivity.
Qed.

Lemma config_written_by_WithConfig_only_witness :
  c (reg started) = Some postgres_configured.
Proof.
  apply (config_written_by_WithConfig_only kratos.deps boot
           [(K.WithConfig (Some postgres_configured),
             Returns VUnit (reconfigure postgres_configured boot));
            (K.Init O kratos.all_fine 1, Returns (VError None) started)]
           started).
  eapply run_cons; [reflexivity|]. eapply run_cons; [reflexivity|]. apply run_nil.
Defined.

(** X7: only [WithCSRFHandler] writes the CSRF handler. After any sequence
    of calls, [CSRFHandler] returns the argument of the last
    [WithCSRFHandler] and leaves the registry alone; it panics if that
    argument was nil or if there was no such call since the registry was
    created. *)
Theorem CSRFHandler_after (d : Deps) (h : list (K.Call * Outcome Value)) (s : Proc) :
  run d boot h s ->
  CSRFHandler s =
    match last_csrf_handler (map fst h) None with
    | Some handler => Returns handler s
    | None => Panics "csrf handler is not set" s
    end.
Proof.
  intros Hrun.
  assert (E : singleton (reg s) F.nosurf = last_csrf_handler (map fst h) None).
  { change None with (singleton (reg boot) F.nosurf) at 1.
    induction Hrun as [s|s k o h s' He Hr IH]; [reflexivity|].
    cbn [map fst]. unfold last_csrf_handler in *. cbn [fold_left]. rewrite IH. f_equal.
    destruct k as [g|v|lg|cfg|hd| |ctx|db|ctx w fuel];
      try (match type of He with
           | exec _ ?k _ = _ => apply (exec_keeps (fun m => singleton m F.nosurf) d k s o)
           end; try reflexivity; try (intros; discriminate); try exact He;
           intros f' v' m' Hf; cbn; destruct (F.eq_dec f' F.nosurf); congruence).
    cbn in He. injection He as <-. reflexivity. }
  unfold CSRFHandler, bind, read. rewrite E.
  destruct (last_csrf_handler (map fst h) None); reflexivity.
Qed.

Lemma CSRFHandler_after_witness :
  CSRFHandler started = Panics "csrf handler is not set" started.
Proof.
  apply (CSRFHandler_after kratos.deps
           [(K.WithConfig (Some postgres_configured),
             Returns VUnit (reconfigure postgres_configured boot));
            (K.Init O kratos.all_fine 1, Returns (VError None) started)]
           started).
  eapply run_cons; [reflexivity|]. eapply run_cons; [reflexivity|]. apply run_nil.
Defined.

(** ** More on the bootstrap *)

(** X8: [Init] writes the persister and, when it logs, the logger, and
    nothing else: whatever its outcome (nil, an error, a panic), the
    configuration, the session cookie store, the strategy sets and every
    singleton except the logger are as before. *)
Theorem Init_frame (d : Deps) (ctx : Context) (w : nat -> Attempt) (fuel : nat)
    (s : Proc) (o : Outcome (option error)) :
  Init d ctx w fuel s = Some o ->
  c (reg (final o)) = c (reg s) /\
  sessionsStore (reg (final o)) = sessionsStore (reg s) /\
  selfserviceStrategies (reg (final o)) = selfserviceStrategies (reg s) /\
  registrationStrategies (reg (final o)) = registrationStrategies (reg s) /\
  loginStrategies (reg (final o)) = loginStrategies (reg s) /\
  verificationStrategies (reg (final o)) = verificationStrategies (reg s) /\
  activeCredentialsCounterStrategies (reg (final o))
  = activeCredentialsCounterStrategies (reg s) /\
  forall f, f <> F.l -> singleton (reg (final o)) f = singleton (reg s) f.
Proof.
  intros H.
  repeat (split; [apply (keeps_Init _ d ctx w fuel s o); [reflexivity | reflexivity | exact H]|]).
  intros f Hf. apply (keeps_Init (fun m => singleton m f) d ctx w fuel s o);
    [|reflexivity|exact H].
  intros v m. unfold set_singleton. cbn [singleton].
  destruct (F.eq_dec F.l f); congruence.
Qed.

Lemma Init_frame_witness :
  sessionsStore (reg started) = None /\ c (reg started) = Some postgres_configured.
Proof.
  destruct (Init_frame kratos.deps O kratos.all_fine 1 (reconfigure postgres_configured boot)
              (Returns None started) eq_refl) as (Hc & Hs & _).
  split; [exact Hs | exact Hc].
Defined.

Lemma Init_error_leaves_nil d ctx w fuel s cfg e s' :
  c (reg s) = Some cfg ->
  Init d ctx w fuel s = Some (Returns (Some e) s') ->
  c (reg s') = Some cfg /\ persister (reg s') = None.
Proof.
  intros Hc H. split.
  - rewrite <- Hc. apply (keeps_Init c d ctx w fuel s _ ltac:(reflexivity) ltac:(reflexivity) H).
  - destruct (persister (reg s)) as [p|] eqn:Hp.
    + rewrite (Init_when_set d ctx w fuel s p Hp) in H. discriminate.
    + destruct (Init_last_run d ctx w cfg s Hc Hp fuel _ H) as (n & Hn & Hlast).
      destruct (Init_ends d ctx w cfg s Hc Hp n fuel Hlast Hn) as (s1 & E & _ & Hper).
      rewrite E in H. injection H as He <-.
      destruct (attempt_error d cfg (w n)); [exact Hper | discriminate].
Qed.

(** X9: an [Init] that returned an error can be called again. It has left
    the persister nil and the configuration in place, so the next call does
    not panic: it runs the bootstrap against the world of that call and
    returns what its last run returns. *)
Theorem Init_again_after_error (d : Deps) (ctx : Context) (w : nat -> Attempt) (fuel : nat)
    (s : Proc) (cfg : config.Provider) (e : error) (s' : Proc) :
  c (reg s) = Some cfg ->
  Init d ctx w fuel s = Some (Returns (Some e) s') ->
  forall ctx' w' n fuel', last_run d cfg w' n -> (n < fuel')%nat ->
    exists s'',
      Init d ctx' w' fuel' s'
        = Some (Returns (errors.WithStack (attempt_error d cfg (w' n))) s'') /\
      (attempt_error d cfg (w' n) = None -> persister (reg s'') <> None).
Proof.
  intros Hc H ctx' w' n fuel' Hlast Hn.
  destruct (Init_error_leaves_nil d ctx w fuel s cfg e s' Hc H) as [Hc' Hp'].
  destruct (Init_ends d ctx' w' cfg s' Hc' Hp' n fuel' Hlast Hn) as (s'' & E & _ & Hper).
  exists s''. split; [exact E|]. intros Hok. rewrite Hok in Hper.
  destruct Hper as (a & -> & _). discriminate.
Qed.

Lemma Init_again_after_error_witness :
  exists s' s'',
    Init kratos.deps O kratos.unreachable 4 (reconfigure postgres_configured boot)
      = Some (Returns (Some (WithStackErr (WithStackErr (Err "connection refused")))) s') /\
    Init kratos.deps O kratos.all_fine 1 s' = Some (Returns None s'').
Proof.
  eexists. 
  assert (E : Init kratos.deps O kratos.unreachable 4 (reconfigure postgres_configured boot)
              = Some (Returns (Some (WithStackErr (WithStackErr (Err "connection refused"))))
                        (after (Init kratos.deps O kratos.unreachable 4
                                  (reconfigure postgres_configured boot)) boot)))
    by reflexivity.
  destruct (Init_again_after_error kratos.deps O kratos.unreachable 4
              (reconfigure postgres_configured boot) postgres_configured _ _ eq_refl E
              O kratos.all_fine 0%nat 1%nat) as (s'' & E' & _).
  - split; [intros j Hj; lia | left; reflexivity].
  - lia.
  - exists s''. split; [exact E | exact E'].
Defined.



Lemma filter_flat_map {A B} (f : B -> bool) (g : A -> list B) (xs : list A) :
  filter f (flat_map g xs) = flat_map (fun x => filter f (g x)) xs.
Proof.
  induction xs as [|x xs IH]; cbn; [reflexivity|].
  rewrite filter_app, IH. reflexivity.
Qed.

Lemma flat_map_singleton_length {A B} (g : A -> list B) (b : B) (xs : list A) :
  (forall x, g x = [b]) -> flat_map g xs = repeat b (length xs).
Proof.
  intros H. induction xs as [|x xs IH]; cbn; [reflexivity|].
  rewrite H, IH. reflexivity.
Qed.

Lemma attempt_connections d ctx cfg a :
  filter is_NewConnection (attempt_events d ctx cfg a)
  = [EvNewConnection (connect_url d ctx cfg)].
Proof.
  unfold attempt_events, attempt_conn, connect_url.
  destruct (sqlcon_ParseConnectionOptions d _) as [[[pool idle] life] dsn]. cbn.
  destruct (pop_NewConnection a), (Open a), (sql_NewPersister a), (p_Ping a),
    (dbal_InMemoryDSN d =? config.DSN cfg)%string; reflexivity.
Qed.

(** X11: [Init] connects to the DSN of the contextualized configuration
    (the migration test reads the registry's own). Every run of the closure
    asks for a new connection to that same URL, one per run, and the
    persister that a successful [Init] sets wraps a connection to it, with
    the pool options parsed from that DSN; it is an object allocated during
    this call. *)
Theorem Init_connects_contextualized (d : Deps) (ctx : Context) (w : nat -> Attempt)
    (fuel : nat) (s : Proc) (cfg : config.Provider) (s' : Proc) :
  c (reg s) = Some cfg ->
  Init d ctx w fuel s = Some (Returns None s') ->
  exists p evs n,
    persister (reg s') = Some p /\
    URL (persistence.conn p) = connect_url d ctx cfg /\
    (Pool (persistence.conn p), IdlePool (persistence.conn p),
     ConnMaxLifetime (persistence.conn p))
    = fst (sqlcon_ParseConnectionOptions d
             (config.DSN (corp_ContextualizeConfig d ctx cfg))) /\
    (heap s <= persistence.addr p < heap s')%nat /\
    trace s' = (trace s ++ evs)%list /\
    (n < fuel)%nat /\
    filter is_NewConnection evs = repeat (EvNewConnection (connect_url d ctx cfg)) (S n).
Proof.
  intros Hc H.
  destruct (persister (reg s)) as [p0|] eqn:Hp;
    [rewrite (Init_when_set d ctx w fuel s p0 Hp) in H; discriminate|].
  destruct (Init_last_run d ctx w cfg s Hc Hp fuel _ H) as (n & Hn & Hlast).
  destruct (Init_ends d ctx w cfg s Hc Hp n fuel Hlast Hn) as (s1 & E & Ht & Hper).
  rewrite E in H. injection H as He <-.
  destruct (attempt_error d cfg (w n)); [discriminate|].
  destruct Hper as (a & Hper & Hrange).
  eexists. exists (events_upto d ctx cfg w n), n.
  split; [exact Hper|]. cbn [persistence.conn persistence.addr].
  split; [|split; [|split; [exact Hrange | split; [exact Ht | split; [exact Hn|]]]]].
  - unfold attempt_conn, connect_url.
    destruct (sqlcon_ParseConnectionOptions d _) as [[[pool idle] life] dsn]. reflexivity.
  - unfold attempt_conn.
    destruct (sqlcon_ParseConnectionOptions d _) as [[[pool idle] life] dsn]. reflexivity.
  - unfold events_upto. rewrite filter_flat_map.
    rewrite (flat_map_singleton_length _ (EvNewConnection (connect_url d ctx cfg)))
      by (intros j; apply attempt_connections).
    rewrite length_seq. reflexivity.
Qed.

Lemma Init_connects_contextualized_witness :
  exists p,
    persister (reg started) = Some p /\
    URL (persistence.conn p) = "postgres://kratos@db/kratos".
Proof.
  destruct (Init_connects_contextualized kratos.deps O kratos.all_fine 1
              (reconfigure postgres_configured boot) postgres_configured started
              eq_refl eq_refl) as (p & evs & n & Hp & Hurl & _).
  exists p. split; [exact Hp | exact Hurl].
Defined.



(** ** Memoized components are never replaced *)

Lemma memo_le_refl m : memo_le m m.
Proof. repeat split; auto. Qed.

Lemma memo_le_trans m1 m2 m3 : memo_le m1 m2 -> memo_le m2 m3 -> memo_le m1 m3.
Proof.
  intros (A1 & A2 & A3 & A4 & A5 & A6 & A7) (B1 & B2 & B3 & B4 & B5 & B6 & B7).
  split; [|split; [|split; [|split; [|split; [|split]]]]].
  - intros f p H1 H2 H. apply B1, A1; assumption.
  - intros cs H. apply B2, A2, H.
  - intros H. rewrite <- (A3 H). apply B3. rewrite (A3 H). exact H.
  - intros H. rewrite <- (A4 H). apply B4. rewrite (A4 H). exact H.
  - intros H. rewrite <- (A5 H). apply B5. rewrite (A5 H). exact H.
  - intros H. rewrite <- (A6 H). apply B6. rewrite (A6 H). exact H.
  - intros H. rewrite <- (A7 H). apply B7. rewrite (A7 H). exact H.
Qed.

Lemma ext_ret {A} (x : A) : extends (ret x).
Proof. intros s. apply memo_le_refl. Qed.

Lemma ext_panic {A} v : extends (@panic A v).
Proof. intros s. apply memo_le_refl. Qed.

Lemma ext_exit {A} : extends (@os_Exit A).
Proof. intros s. apply memo_le_refl. Qed.

Lemma ext_read {A} (f : RegistryDefault -> A) : extends (read f).
Proof. intros s. apply memo_le_refl. Qed.

Lemma ext_emit e : extends (emit e).
Proof. intros s. apply memo_le_refl. Qed.

Lemma ext_new : extends new.
Proof. intros s. apply memo_le_refl. Qed.

Lemma ext_write f : (forall m, memo_le m (f m)) -> extends (write f).
Proof. intros H s. cbn. apply H. Qed.

Lemma ext_bind {A B} (m : M A) (k : A -> M B) :
  extends m -> (forall x, extends (k x)) -> extends (bind m k).
Proof.
  intros Hm Hk s. unfold bind. specialize (Hm s).
  destruct (m s) as [x s1|v s1|s1]; cbn in *; try exact Hm.
  apply (memo_le_trans _ _ _ Hm (Hk x s1)).
Qed.

Lemma memo_le_set_singleton f v m0 m :
  (singleton m0 f = None \/ f = F.l \/ f = F.nosurf) ->
  memo_le m0 m -> memo_le m0 (set_singleton f v m).
Proof.
  intros Hf (A1 & A2). split; [|exact A2].
  intros g p H1 H2 H. unfold set_singleton. cbn [singleton].
  destruct (F.eq_dec f g) as [->|_]; [|apply A1; assumption].
  destruct Hf as [Hf|[Hf|Hf]]; congruence.
Qed.

Lemma ext_lazily f ctor : extends ctor -> extends (lazily f ctor).
Proof.
  intros H s. unfold lazily, bind, read. cbn.
  destruct (singleton (reg s) f) as [q|] eqn:E; cbn; [apply memo_le_refl|].
  specialize (H s). destruct (ctor s) as [p s1|v s1|s1]; cbn in *; try exact H.
  apply memo_le_set_singleton; [left; exact E | exact H].
Qed.

Ltac ext tac :=
  repeat (intros;
    first
      [ apply ext_ret | apply ext_panic | apply ext_exit | apply ext_read
      | apply ext_emit | apply ext_new
      | apply ext_lazily
      | apply ext_write; intros; tac
      | apply ext_bind
      | match goal with
        | |- extends (match ?x with _ => _ end) => destruct x
        end ]).

Lemma ext_CookieManager d : extends (CookieManager d).
Proof.
  intros s. unfold CookieManager, bind, read, m_c, sessions_NewCookieStore, new, write, ret. cbn.
  destruct (sessionsStore (reg s)) as [cs|] eqn:E; cbn; [apply memo_le_refl|].
  destruct (c (reg s)); cbn; [|apply memo_le_refl].
  repeat split; cbn; auto. intros cs H. congruence.
Qed.

Lemma ext_selfServiceStrategies d : extends (selfServiceStrategies d).
Proof.
  intros s. unfold selfServiceStrategies, NewStrategy, bind, read, new, write, ret. cbn.
  destruct (selfserviceStrategies (reg s)) eqn:E; cbn; [|apply memo_le_refl].
  repeat split; cbn; auto. intros H. congruence.
Qed.

(** The loops of the strategy-set getters write one field. *)
Lemma range_writes_field get set (body : Strategy -> M unit) (all : list Strategy) :
  field_laws get set ->
  (forall st s, exists v, reg (final (body st s)) = set v (reg s)) ->
  forall s, exists v, reg (final (range all body s)) = set v (reg s).
Proof.
  intros L Hb. induction all as [|st rest IH]; intros s; cbn [range].
  - exists (get (reg s)). cbn. symmetry. apply (set_get _ _ L).
  - unfold bind. destruct (Hb st s) as (v & Hv).
    destruct (body st s) as [[] s1|msg s1|s1]; cbn in Hv; cbn [final]; eauto.
    destruct (IH s1) as (v' & Hv'). exists v'.
    rewrite Hv', Hv. apply (set_set _ _ L).
Qed.

Lemma gated_body_writes get set (impl : Strategy -> bool) :
  field_laws get set ->
  forall st s, exists v,
    reg (final ((if impl st then
                   en <- strategy_enabled st ;;
                   if en then write (fun m => set (get m ++ [st])%list m) else ret tt
                 else ret tt) s)) = set v (reg s).
Proof.
  intros L st s. unfold strategy_enabled, m_c, bind, read, write, ret.
  destruct (impl st); cbn; [|exists (get (reg s)); symmetry; apply (set_get _ _ L)].
  destruct (c (reg s)) as [cfg|]; cbn; [|exists (get (reg s)); symmetry; apply (set_get _ _ L)].
  destruct (config.Enabled _); cbn; eauto.
  exists (get (reg s)); symmetry; apply (set_get _ _ L).
Qed.

Lemma ungated_body_writes get set (impl : Strategy -> bool) :
  field_laws get set ->
  forall st s, exists v,
    reg (final ((if impl st then write (fun m => set (get m ++ [st])%list m)
                 else ret tt) s)) = set v (reg s).
Proof.
  intros L st s. unfold write, ret.
  destruct (impl st); cbn; eauto.
  exists (get (reg s)); symmetry; apply (set_get _ _ L).
Qed.

(** The shape of the strategy-set getters replaces nothing memoized. *)
Lemma ext_list_getter d (get : RegistryDefault -> list Strategy)
    (set : list Strategy -> RegistryDefault -> RegistryDefault)
    (loop : list Strategy -> M unit) :
  (forall all s, exists v, reg (final (loop all s)) = set v (reg s)) ->
  (forall m0 m v, get m0 = [] -> memo_le m0 m -> memo_le m0 (set v m)) ->
  extends (cur <- read get ;;
           (if (length cur =? 0)%nat then all <- selfServiceStrategies d ;; loop all
            else ret tt) ;;
           read get).
Proof.
  intros Hloop Hset s. unfold bind at 1, read at 1.
  destruct (get (reg s)) eqn:E; cbn [length Nat.eqb]; [|apply memo_le_refl].
  unfold bind at 1. unfold bind at 1.
  pose proof (ext_selfServiceStrategies d s) as H1.
  destruct (selfServiceStrategies d s) as [all s1|v s1|s1]; cbn [final] in *; try exact H1.
  destruct (Hloop all s1) as (v & Hv).
  assert (H2 : memo_le (reg s) (reg (final (loop all s1)))).
  { rewrite Hv. apply Hset; [exact E | exact H1]. }
  destruct (loop all s1) as [[] s2|msg s2|s2]; cbn [final] in *; exact H2.
Qed.

Ltac memo_set :=
  let H := fresh in
  intros ? ? ? ? H; destruct H as (? & ? & ? & ? & ? & ? & ?);
  repeat split; cbn; auto; intros; congruence.

Lemma memo_le_set_registrationStrategies m0 m v :
  registrationStrategies m0 = [] -> memo_le m0 m ->
  memo_le m0 (set_registrationStrategies v m).
Proof. revert m0 m v. memo_set. Qed.

Lemma memo_le_set_loginStrategies m0 m v :
  loginStrategies m0 = [] -> memo_le m0 m -> memo_le m0 (set_loginStrategies v m).
Proof. revert m0 m v. memo_set. Qed.

Lemma memo_le_set_verificationStrategies m0 m v :
  verificationStrategies m0 = [] -> memo_le m0 m ->
  memo_le m0 (set_verificationStrategies v m).
Proof. revert m0 m v. memo_set. Qed.

Lemma memo_le_set_activeCredentialsCounterStrategies m0 m v :
  activeCredentialsCounterStrategies m0 = [] -> memo_le m0 m ->
  memo_le m0 (set_activeCredentialsCounterStrategies v m).
Proof. revert m0 m v. memo_set. Qed.

Lemma memo_le_set_c v m : memo_le m (set_c v m).
Proof. repeat split; cbn; auto. Qed.

Lemma memo_le_set_persister v m : memo_le m (set_persister v m).
Proof. repeat split; cbn; auto. Qed.

Lemma ext_getter d g : extends (getter d g).
Proof.
  destruct g; unfold getter, as_; (apply ext_bind; [|intros; apply ext_ret]);
    try (ext idtac; fail).
  - apply ext_CookieManager.
  - apply ext_selfServiceStrategies.
  - apply (ext_list_getter d registrationStrategies set_registrationStrategies).
    + intros all s. apply (range_writes_field registrationStrategies set_registrationStrategies).
      * apply registrationStrategies_laws.
      * apply (gated_body_writes registrationStrategies set_registrationStrategies
                 implements_registration registrationStrategies_laws).
    + intros. apply memo_le_set_registrationStrategies; assumption.
  - apply (ext_list_getter d loginStrategies set_loginStrategies).
    + intros all s. apply (range_writes_field loginStrategies set_loginStrategies).
      * apply loginStrategies_laws.
      * apply (gated_body_writes loginStrategies set_loginStrategies
                 implements_login loginStrategies_laws).
    + intros. apply memo_le_set_loginStrategies; assumption.
  - apply (ext_list_getter d verificationStrategies set_verificationStrategies).
    + intros all s. apply (range_writes_field verificationStrategies set_verificationStrategies).
      * apply verificationStrategies_laws.
      * apply (ungated_body_writes verificationStrategies set_verificationStrategies
                 implements_verification verificationStrategies_laws).
    + intros. apply memo_le_set_verificationStrategies; assumption.
  - apply (ext_list_getter d activeCredentialsCounterStrategies
             set_activeCredentialsCounterStrategies).
    + intros all s.
      apply (range_writes_field activeCredentialsCounterStrategies
               set_activeCredentialsCounterStrategies).
      * apply activeCredentialsCounterStrategies_laws.
      * apply (ungated_body_writes activeCredentialsCounterStrategies
                 set_activeCredentialsCounterStrategies
                 implements_counter activeCredentialsCounterStrategies_laws).
    + intros. apply memo_le_set_activeCredentialsCounterStrategies; assumption.
Qed.

Lemma ext_bootstrap d ctx a : extends (bootstrap d ctx a).
Proof.
  unfold bootstrap.
  apply ext_bind; [unfold Configuration; ext idtac|]. intros cfg.
  apply ext_bind; [ext idtac|]. intros _.
  destruct (sqlcon_ParseConnectionOptions d (config.DSN cfg)) as [[[pool idle] life] dsn].
  unfold warn, m_c. ext ltac:(apply memo_le_set_persister).
Qed.

Lemma ext_Retry d ctx w b clock fuel :
  forall i s o,
    backoff.Retry fuel (fun i => bootstrap d ctx (w i)) b clock i s = Some o ->
    memo_le (reg s) (reg (final o)).
Proof.
  induction fuel as [|fuel IH]; intros i s o H; [discriminate|].
  cbn [backoff.Retry] in H. pose proof (ext_bootstrap d ctx (w i) s) as Hb.
  destruct (bootstrap d ctx (w i) s) as [[err|] s1|v s1|s1]; cbn [final] in Hb.
  - destruct (backoff.stops b (clock i)).
    + injection H as <-. exact Hb.
    + apply (memo_le_trans _ _ _ Hb (IH _ _ _ H)).
  - injection H as <-. exact Hb.
  - injection H as <-. exact Hb.
  - injection H as <-. exact Hb.
Qed.

(** No call replaces anything memoized. *)
Lemma exec_extends d k s o : exec d k s = Some o -> memo_le (reg s) (reg (final o)).
Proof.
  destruct k as [g|v|lg|cfg|h| |ctx|db|ctx w fuel]; cbn [exec];
    try (intros H; injection H as <-).
  - apply ext_getter.
  - revert s. change (extends (as_ VPersister (view v))). destruct v; unfold as_; ext idtac.
  - revert s. change (extends (as_ (fun _ => VUnit) (WithLogger lg))).
    unfold as_, WithLogger.
    ext ltac:(apply memo_le_set_singleton; [auto | apply memo_le_refl]).
  - revert s. change (extends (as_ (fun _ => VUnit) (WithConfig cfg))).
    unfold as_, WithConfig. ext ltac:(apply memo_le_set_c).
  - revert s. change (extends (as_ (fun _ => VUnit) (WithCSRFHandler h))).
    unfold as_, WithCSRFHandler.
    ext ltac:(apply memo_le_set_singleton; [auto | apply memo_le_refl]).
  - revert s. change (extends (as_ VPtr CSRFHandler)). unfold as_, CSRFHandler. ext idtac.
  - revert s. change (extends (as_ VConfig (Configuration d ctx))).
    unfold as_, Configuration. ext idtac.
  - revert s. change (extends (as_ VError (Ping db))). unfold as_, Ping. ext idtac.
  - unfold Init. destruct (persister (reg s)).
    + intros H. injection H as <-. apply memo_le_refl.
    + destruct (backoff.Retry _ _ _ _ _ _) as [o'|] eqn:E; [|discriminate].
      pose proof (ext_Retry _ _ _ _ _ _ _ _ _ E) as K.
      destruct o'; cbn; intros H; injection H as <-; exact K.
Qed.

Lemma run_extends d s h s' : run d s h s' -> memo_le (reg s) (reg s').
Proof.
  induction 1 as [s|s k o h s' He Hr IH]; [apply memo_le_refl|].
  apply (memo_le_trans _ _ _ (exec_extends d k s o He) IH).
Qed.

(** X13: what a getter has constructed stays for good. Once a getter other
    than [Logger] and [ContinuityCookieManager] has returned a component
    (for a strategy set: a set that is not empty), it returns that same
    component, and changes nothing, after any sequence of calls on the
    registry: other getters, [WithConfig], [WithLogger], [WithCSRFHandler],
    [Init] with its retries, [Ping]. No method resets a memoized component. *)
Theorem memoized_for_good (d : Deps) (g : G.Getter) (s : Proc) (x : Value) (s' : Proc)
    (h : list (K.Call * Outcome Value)) (t : Proc) :
  getter d g s = Returns x s' ->
  (forall ctx, g <> G.ContinuityCookieManager ctx) ->
  g <> G.Logger ->
  x <> VStrategies [] ->
  run d s' h t ->
  getter d g t = Returns x t.
Proof.
  intros H Hg Hl Hx Hrun.
  destruct (run_extends d s' h t Hrun) as (Hsing & Hstore & Hall & Hreg & Hlog & Hver & Hacc).
  destruct g; cbn [getter] in *; apply as_Returns in H; destruct H as (y & H & ->);
    try (apply as_eq; apply lazily_hit; apply Hsing;
         [discriminate | discriminate | apply (lazily_memo _ _ _ _ _ H)]).
  - congruence.
  - apply as_eq, CookieManager_hit, Hstore. apply (CookieManager_memo _ _ _ _ H).
  - elim (Hg ctx). reflexivity.
  - apply as_eq. apply list_getter_memo in H. subst y.
    rewrite <- Hall by congruence. apply list_getter_hit. rewrite Hall; congruence.
  - apply as_eq. apply list_getter_memo in H. subst y.
    rewrite <- Hreg by congruence. apply list_getter_hit. rewrite Hreg; congruence.
  - apply as_eq. apply list_getter_memo in H. subst y.
    rewrite <- Hlog by congruence. apply list_getter_hit. rewrite Hlog; congruence.
  - apply as_eq. apply list_getter_memo in H. subst y.
    rewrite <- Hver by congruence. apply list_getter_hit. rewrite Hver; congruence.
  - apply as_eq. apply list_getter_memo in H. subst y.
    rewrite <- Hacc by congruence. apply list_getter_hit. rewrite Hacc; congruence.
Qed.

Lemma memoized_for_good_witness :
  getter kratos.deps G.Hasher
    (reconfigure all_enabled (final (getter kratos.deps G.Hasher boot)))
  = Returns (VPtr O) (reconfigure all_enabled (final (getter kratos.deps G.Hasher boot))).
Proof.
  apply (memoized_for_good kratos.deps G.Hasher boot (VPtr O)
           (final (getter kratos.deps G.Hasher boot))
           [(K.WithConfig (Some all_enabled),
             Returns VUnit
               (reconfigure all_enabled (final (getter kratos.deps G.Hasher boot))))]).
  - reflexivity.
  - discriminate.
  - discriminate.
  - discriminate.
  - eapply run_cons; [reflexivity | apply run_nil].
Defined.

(** ** Getters on a registry without configuration *)

(** X14: which getters need the configuration. On a registry without
    configuration and with nothing memoized, [Tracer] and
    [ContinuityCookieManager] panic with "configuration not set" and
    [CookieManager] panics on the nil provider, each leaving the registry
    as it was (nothing half built is stored). [LogoutHandler] and [Courier]
    hand the nil provider to their constructor: they panic, with the
    registry as it was, when the constructor panics on it, and return the
    new object otherwise. Every other getter, the registration and login
    sets apart, constructs and returns its component without reading the
    configuration field. *)
Theorem getters_unconfigured (d : Deps) (g : G.Getter) (s : Proc) :
  c (reg s) = None ->
  singleton (reg s) F.trc = None ->
  sessionsStore (reg s) = None ->
  singleton (reg s) F.selfserviceLogoutHandler = None ->
  singleton (reg s) F.courier = None ->
  g <> G.RegistrationStrategies -> g <> G.LoginStrategies ->
  match g with
  | G.Tracer _ | G.ContinuityCookieManager _ =>
      getter d g s = Panics "configuration not set" s
  | G.CookieManager =>
      getter d g s = Panics nil_dereference s
  | G.LogoutHandler =>
      match logout_NewHandler d None with
      | Some v => getter d g s = Panics v s
      | None => exists s', getter d g s = Returns (VPtr (heap s)) s'
      end
  | G.Courier =>
      match courier_NewSMTP d None with
      | Some v => getter d g s = Panics v s
      | None => exists s', getter d g s = Returns (VPtr (heap s)) s'
      end
  | _ => exists x s', getter d g s = Returns x s'
  end.
Proof.
  intros Hc Ht Hs Hlo Hco Hr Hl.
  destruct g; try congruence;
    try (unfold getter, as_, Audit, HealthHandler, MetricsHandler,
           IdentityValidator, Writer, Logger, IdentityHandler, SchemaHandler, SessionHandler,
           Hasher, PasswordValidator, SelfServiceErrorHandler, SessionManager,
           SelfServiceErrorManager, ContinuityManager, IdentityManager,
           PrometheusManager, lazily, bind, read, new, write, ret; cbn;
         repeat match goal with
                | |- context [singleton (reg s) ?f] => destruct (singleton (reg s) f); cbn
                end; eauto; fail).
  - unfold getter, as_, LogoutHandler, lazily, bind, read, new, write, ret, panic. cbn.
    rewrite Hlo. cbn. rewrite Hc. destruct (logout_NewHandler d None); cbn; eauto.
  - unfold getter, as_, Courier, lazily, bind, read, new, write, ret, panic. cbn.
    rewrite Hco. cbn. rewrite Hc. destruct (courier_NewSMTP d None); cbn; eauto.
  - unfold getter, as_, Tracer, lazily, Configuration, bind, read. cbn. rewrite Ht. cbn.
    rewrite Hc. reflexivity.
  - unfold getter, as_, CookieManager, m_c, bind, read. cbn. rewrite Hs. cbn.
    rewrite Hc. reflexivity.
  - unfold getter, as_, ContinuityCookieManager, Configuration, bind, read. cbn.
    rewrite Hc. reflexivity.
  - destruct (selfServiceStrategies_returns d s) as (all & s1 & E & _).
    eexists _, _. cbn [getter]. apply as_eq, E.
  - destruct (nil_or_not (verificationStrategies (reg s))) as [He|Hne].
    + destruct (selfServiceStrategies_returns d s) as (all & s1 & E & _).
      eexists _, _. cbn [getter].
      apply as_eq, (VerificationStrategies_build d s all s1 He E).
    + eexists _, _. cbn [getter]. apply as_eq, (VerificationStrategies_memoized d s Hne).
  - destruct (nil_or_not (activeCredentialsCounterStrategies (reg s))) as [He|Hne].
    + destruct (selfServiceStrategies_returns d s) as (all & s1 & E & _).
      eexists _, _. cbn [getter].
      apply as_eq, (ActiveCredentialsCounterStrategies_build d ctx s all s1 He E).
    + eexists _, _. cbn [getter]. apply as_eq.
      apply (list_getter_hit activeCredentialsCounterStrategies _ s Hne).
Qed.

Lemma getters_unconfigured_witness :
  getter kratos.deps G.CookieManager boot = Panics nil_dereference boot /\
  getter kratos.deps G.Courier boot = Panics nil_dereference boot /\
  (exists s', getter kratos.deps G.LogoutHandler boot = Returns (VPtr O) s') /\
  (exists x s', getter kratos.deps G.HealthHandler boot = Returns x s').
Proof.
  split; [|split; [|split]].
  - apply (getters_unconfigured kratos.deps G.CookieManager boot);
      first [reflexivity | discriminate].
  - apply (getters_unconfigured kratos.deps G.Courier boot);
      first [reflexivity | discriminate].
  - apply (getters_unconfigured kratos.deps G.LogoutHandler boot);
      first [reflexivity | discriminate].
  - apply (getters_unconfigured kratos.deps G.HealthHandler boot);
      first [reflexivity | discriminate].
Defined.



(** ** The CSRF token generator *)

Lemma csrf_effective (dflt : csrf.CSRFToken) (ks : list csrf.Call) :
  forall field acc,
    match field with Some g => g | None => dflt end
    = match acc with Some g => g | None => dflt end ->
    match csrf.after_calls dflt ks field with Some g => g | None => dflt end
    = match fold_left (fun acc k => match k with csrf.With cg => cg | csrf.Generate _ => acc end)
              ks acc with
      | Some g => g
      | None => dflt
      end.
Proof.
  unfold csrf.after_calls.
  induction ks as [|k ks IH]; intros field acc H; cbn [fold_left]; [exact H|].
  apply IH. destruct k as [cg|r]; [reflexivity|].
  rewrite <- H. destruct field; reflexivity.
Qed.

(** X15: [GenerateCSRFToken] answers with the generator that the last
    [WithCSRFTokenGenerator] installed, and with [x.DefaultCSRFToken] when
    there was none or when the last one installed nil. Generating a token
    memoizes the default in the field but never changes which generator
    answers next, so a generator installed later always takes effect. *)
Theorem GenerateCSRFToken_uses_last_installed (DefaultCSRFToken : csrf.CSRFToken)
    (ks : list csrf.Call) (r : csrf.Request) :
  let field := csrf.after_calls DefaultCSRFToken ks None in
  fst (csrf.GenerateCSRFToken DefaultCSRFToken r field)
  = match csrf.installed ks with
    | Some g => g r
    | None => DefaultCSRFToken r
    end /\
  snd (csrf.GenerateCSRFToken DefaultCSRFToken r field) <> None.
Proof.
  cbn zeta. pose proof (csrf_effective DefaultCSRFToken ks None None eq_refl) as H.
  unfold csrf.installed. split.
  - transitivity (match csrf.after_calls DefaultCSRFToken ks None with
                  | Some g => g
                  | None => DefaultCSRFToken
                  end r).
    + unfold csrf.GenerateCSRFToken.
      destruct (csrf.after_calls DefaultCSRFToken ks None); reflexivity.
    + rewrite H. destruct (fold_left _ ks None); reflexivity.
  - unfold csrf.GenerateCSRFToken.
    destruct (csrf.after_calls DefaultCSRFToken ks None); discriminate.
Qed.
